(** * DS18B20 one-wire driver (pxt-ds18b20.cpp): model and properties

    The driver bit-bangs the 1-Wire protocol on one digital pin of the
    micro:bit.  It talks to the outside through three operations only:
    [pin->setDigitalValue], [pin->getDigitalValue] and
    [system_timer_current_time_us].  The model keeps these three as the
    operations of a simulated board ([Env]) and writes every function of
    the namespace [ds18b20] over them, in a state monad whose [None] means
    that a [while] loop used up its iteration budget. *)

From Stdlib Require Import ZArith List Bool Lia QArith SpecFloat.
Import ListNotations.
Open Scope Z_scope.

(** ** Machine integers *)

Module Int.

(** [uint8_t] and [uint16_t]: reduction modulo 2^8 and 2^16. *)
Definition to_uint8 (x : Z) : Z := x mod 256.
Definition to_uint16 (x : Z) : Z := x mod 65536.

(** [int] is 32 bits wide on the target; a value that does not fit
    wraps around (two's complement). *)
Definition to_int (x : Z) : Z := (x + 2147483648) mod 4294967296 - 2147483648.

Definition is_uint8 (x : Z) : Prop := 0 <= x < 256.
Definition is_int (x : Z) : Prop := -2147483648 <= x < 2147483648.

End Int.

(** ** Floating point

    [temp * 0.0625] multiplies an [int] converted to [double] by a
    [double] constant; the [return] converts the product to [float].
    Both formats are IEEE 754 (binary64 and binary32), modelled with the
    executable specification [SpecFloat]. *)

Module F.

Definition double := spec_float.
Definition float := spec_float.

Definition double_of_int (n : Z) : double := binary_normalize 53 1024 n 0 false.

(** The literals [0.0625] and [-0.0625], that is, 2^-4 and its opposite. *)
Definition c0625 : double := binary_normalize 53 1024 1 (-4) false.
Definition cm0625 : double := binary_normalize 53 1024 (-1) (-4) false.

Definition mul (x y : double) : double := SFmul 53 1024 x y.

(** Conversion [double] to [float]: rounding to nearest even in binary32. *)
Definition to_float (x : double) : float :=
  match x with
  | S754_finite s m e => binary_normalize 24 128 (cond_Zopp s (Zpos m)) e s
  | _ => x
  end.

(** The rational a finite float stands for ([None] for infinities and NaN). *)
Definition value (x : spec_float) : option Q :=
  match x with
  | S754_zero _ => Some 0%Q
  | S754_finite s m e =>
      let q := match e with
               | Zneg p => (Zpos m # Pos.shiftl 1 (Npos p))%Q
               | _ => inject_Z (Zpos m * 2 ^ e)
               end in
      Some (if s then Qopp q else q)
  | _ => None
  end.

(** [has_value x q]: [x] is finite and stands for the rational [q]. *)
Definition has_value (x : spec_float) (q : Q) : Prop :=
  match value x with
  | Some v => (v == q)%Q
  | None => False
  end.

Definition has_valueb (x : spec_float) (q : Q) : bool :=
  match value x with
  | Some v => Qeq_bool v q
  | None => false
  end.

End F.

(** ** The decoder

    Lines 224 to 234 of [ds18b20GetTemperture], as a function of the two
    bytes read from the scratchpad. *)

(** Lines 224 to 226: the 16-bit variable [temp] made of the two bytes. *)
Definition combine (TH TL : Z) : Z :=
  let temp := Int.to_uint16 TH in            (* temp = TH;                       *)
  let _ := Z.shiftl temp 8 in                (* temp << 8;     the value is dropped *)
  Int.to_uint16 (temp + TL).                 (* temp = temp + TL;                *)

(** Line 228: [(temp & 0xF800) == 0xF800]. *)
Definition sign_pattern (temp : Z) : bool := Z.land temp 0xF800 =? 0xF800.

(** Lines 228 to 234: the temperature for a value of [temp]. *)
Definition decode_word (temp : Z) : F.float :=
  if sign_pattern temp then
    let temp := Int.to_uint16 (Z.lnot temp + 1) in      (* temp = (~temp) + 1;     *)
    F.to_float (F.mul (F.double_of_int temp) F.cm0625)  (* return temp * -0.0625;  *)
  else
    F.to_float (F.mul (F.double_of_int temp) F.c0625).  (* return temp * 0.0625;   *)

Definition decode (TH TL : Z) : F.float := decode_word (combine TH TL).

(** The word the specification describes, [(TH << 8) | TL], and the
    decoder that starts from it. *)
Definition spec_combine (TH TL : Z) : Z := Int.to_uint16 (Z.lor (Z.shiftl TH 8) TL).

Definition spec_decode (TH TL : Z) : F.float := decode_word (spec_combine TH TL).

(** ** The simulated board *)

(** The edge-connector pins [uBit.io.P0] to [uBit.io.P16]. *)
Inductive PinName :=
| P0 | P1 | P2 | P3 | P4 | P5 | P6 | P7 | P8
| P9 | P10 | P11 | P12 | P13 | P14 | P15 | P16.

(** What the master does on the bus, with the simulated time of each
    action: [Drive p v t] is [p->setDigitalValue(v)] ([true] is high),
    [Sample p v t] is a [p->getDigitalValue()] that read [v]. *)
Inductive Event :=
| Drive (p : PinName) (v : bool) (t : Z)
| Sample (p : PinName) (v : bool) (t : Z).

Definition event_pin (e : Event) : PinName :=
  match e with Drive p _ _ | Sample p _ _ => p end.

(** The board the driver runs on.  [clock k] is what the k-th call of
    [system_timer_current_time_us] returns, counted from 0.  Simulated
    time advances with the readings of the clock only: the time of a
    state is the value the next reading would return, and driving or
    sampling the pin takes no time.  [line p t h] is the level read on
    pin [p] at time [t] when [h] is what happened on the bus before
    (latest event first): it stands for the sensor, the pull-up and the
    master's own output stage. *)
Record Env := {
  clock : nat -> Z;
  line : PinName -> Z -> list Event -> bool
}.

(** The state the driver changes: the global [pin], the number of clock
    readings made so far, and the bus history (latest event first). *)
Record World := {
  pin : PinName;
  reads : nat;
  trace : list Event
}.

(** [MicroBitPin *pin = &uBit.io.P8;] *)
Definition boot : World := {| pin := P8; reads := 0; trace := [] |}.

(** ** A state monad with failure *)

Definition M (A : Type) : Type := World -> option (A * World).

Definition ret {A} (a : A) : M A := fun w => Some (a, w).

Definition bind {A B} (m : M A) (k : A -> M B) : M B :=
  fun w => match m w with
           | Some (a, w') => k a w'
           | None => None
           end.

(** A loop that has used up its iteration budget. *)
Definition out_of_fuel {A} : M A := fun _ => None.

Declare Scope drv_scope.
Delimit Scope drv_scope with drv.
Notation "x <- m ;; k" := (bind m (fun x => k))
  (at level 61, m at next level, right associativity) : drv_scope.
Notation "m ;; k" := (bind m (fun _ => k))
  (at level 61, right associativity) : drv_scope.
Open Scope drv_scope.

(** [for (int i = from; i < from + count; i++) acc = body(i, acc);] *)
Fixpoint for_loop {S : Type} (count : nat) (i : Z) (body : Z -> S -> M S) (acc : S) : M S :=
  match count with
  | O => ret acc
  | S count' => acc' <- body i acc ;; for_loop count' (i + 1) body acc'
  end.

Section Driver.

Variable env : Env.

(** How many times a [while] loop may go round before the model gives
    up ([None]).  The C++ loops have no such limit. *)
Variable fuel : nat.

(** The simulated time in a state. *)
Definition now (w : World) : Z := clock env (reads w).

(** *** The three operations of the board *)

Definition system_timer_current_time_us : M Z :=
  fun w => Some (now w, {| pin := pin w; reads := S (reads w); trace := trace w |}).

Definition setDigitalValue (v : bool) : M unit :=
  fun w => Some (tt, {| pin := pin w; reads := reads w;
                        trace := Drive (pin w) v (now w) :: trace w |}).

Definition getDigitalValue : M bool :=
  fun w => let v := line env (pin w) (now w) (trace w) in
           Some (v, {| pin := pin w; reads := reads w;
                       trace := Sample (pin w) v (now w) :: trace w |}).

(** *** sleep_us *)

(** [while ((nowtime - lasttime) < us) nowtime = system_timer_current_time_us();]
    with [n] iterations left.  The difference of two [int] wraps. *)
Fixpoint sleep_us_loop (n : nat) (us lasttime nowtime : Z) : M unit :=
  if Int.to_int (nowtime - lasttime) <? us then
    match n with
    | O => out_of_fuel
    | S n' =>
        t <- system_timer_current_time_us ;;
        sleep_us_loop n' us lasttime (Int.to_int t)
    end
  else ret tt.

Definition sleep_us (us : Z) : M unit :=
  t0 <- system_timer_current_time_us ;;
  let lasttime := Int.to_int t0 in
  t1 <- system_timer_current_time_us ;;
  let nowtime := Int.to_int t1 in
  sleep_us_loop fuel us lasttime nowtime.

(** *** Write and read slots *)

(** The body of the loop of [ds18b20WiteByte]: the slot of bit [i]. *)
Definition write_slot (data i : Z) : M unit :=
  if negb (Z.land (Z.shiftr data i) 0x01 =? 0) then
    setDigitalValue false ;;
    sleep_us 2 ;;
    setDigitalValue true ;;
    sleep_us 60
  else
    setDigitalValue false ;;
    sleep_us 60 ;;
    setDigitalValue true ;;
    sleep_us 2.

Definition ds18b20WiteByte (data : Z) : M unit :=
  let data := Int.to_uint8 data in         (* the parameter is a [uint8_t] *)
  for_loop 8 0 (fun i _ => write_slot data i) tt.

Definition ds18b20ReadBit : M Z :=
  setDigitalValue false ;;
  sleep_us 2 ;;
  setDigitalValue true ;;
  sleep_us 5 ;;
  v <- getDigitalValue ;;
  let bit := if v then 1 else 0 in
  sleep_us 60 ;;
  ret bit.

(** The body of the loop of [ds18b20ReadByte]. *)
Definition read_step (i data : Z) : M Z :=
  bit <- ds18b20ReadBit ;;
  sleep_us 2 ;;
  ret (Int.to_uint8 (Z.lor data (Z.shiftl bit i))).

Definition ds18b20ReadByte : M Z :=
  data <- for_loop 8 0 read_step 0 ;;
  sleep_us 2 ;;
  ret data.

(** *** Reset and presence *)

Definition ds18b20Rest : M unit :=
  setDigitalValue false ;;
  sleep_us 750 ;;
  setDigitalValue true ;;
  sleep_us 15.

(** [while (pin->getDigitalValue()) { state++; sleep_us(1); if (state >= limit) break; }]
    when [level] is [true], and the same loop on [!pin->getDigitalValue()]
    when it is [false]; the result is [state] after the loop. *)
Fixpoint poll_while (n : nat) (level : bool) (limit state : Z) : M Z :=
  v <- getDigitalValue ;;
  if Bool.eqb v level then
    let state := state + 1 in
    sleep_us 1 ;;
    if limit <=? state then ret state
    else match n with
         | O => out_of_fuel
         | S n' => poll_while n' level limit state
         end
  else ret state.

Definition ds18b20Check : M bool :=
  let state := 0 in
  state <- poll_while fuel true 200 state ;;
  if 200 <=? state then ret false
  else
    let state := 0 in
    state <- poll_while fuel false 240 state ;;
    if 240 <=? state then ret false
    else ret true.

(** *** Transactions *)

Definition ds18b20Start : M unit :=
  ds18b20Rest ;;
  _ <- ds18b20Check ;;
  sleep_us 2 ;;
  ds18b20WiteByte 0xCC ;;
  ds18b20WiteByte 0x44.

Definition ds18b20GetTemperture : M F.float :=
  ds18b20Start ;;
  sleep_us 100 ;;
  ds18b20Rest ;;
  _ <- ds18b20Check ;;
  sleep_us 2 ;;
  ds18b20WiteByte 0xCC ;;
  ds18b20WiteByte 0xBE ;;
  TL <- ds18b20ReadByte ;;
  sleep_us 100 ;;
  TH <- ds18b20ReadByte ;;
  ret (decode TH TL).

(** *** Entry point *)

(** The [switch] of [temperature]. *)
Definition select_pin (p : Z) : PinName :=
  match p with
  | 0 => P0 | 1 => P1 | 2 => P2 | 3 => P3 | 4 => P4 | 5 => P5
  | 6 => P6 | 7 => P7 | 8 => P8 | 9 => P9 | 10 => P10 | 11 => P11
  | 12 => P12 | 13 => P13 | 14 => P14 | 15 => P15 | 16 => P16
  | _ => P8
  end.

Definition set_pin (q : PinName) : M unit :=
  fun w => Some (tt, {| pin := q; reads := reads w; trace := trace w |}).

Definition temperature (p : Z) : M F.float :=
  set_pin (select_pin p) ;;
  ds18b20GetTemperture.

End Driver.

(** ** Clocks *)

(** A clock that never runs backwards. *)
Definition monotone (env : Env) : Prop :=
  forall k, clock env k <= clock env (S k).

(** A clock that advances by at least 1 and at most [D] microseconds
    from one reading to the next. *)
Definition steady (D : Z) (env : Env) : Prop :=
  forall k, 1 <= clock env (S k) - clock env k <= D.

(** ** Facts on machine integers *)

Lemma to_int_small x : Int.is_int x -> Int.to_int x = x.
Proof.
  unfold Int.is_int, Int.to_int. intros H.
  rewrite Z.mod_small by lia. lia.
Qed.

Lemma to_int_range x : Int.is_int (Int.to_int x).
Proof.
  unfold Int.is_int, Int.to_int.
  pose proof (Z.mod_pos_bound (x + 2147483648) 4294967296 ltac:(lia)). lia.
Qed.

Lemma to_int_eqm x : exists k, Int.to_int x = x - k * 4294967296.
Proof.
  unfold Int.to_int. exists ((x + 2147483648) / 4294967296).
  pose proof (Z.div_mod (x + 2147483648) 4294967296 ltac:(lia)). lia.
Qed.

(** The difference of two truncated readings, itself truncated, is the
    truncation of the true difference. *)
Lemma to_int_sub a b : Int.to_int (Int.to_int a - Int.to_int b) = Int.to_int (a - b).
Proof.
  destruct (to_int_eqm a) as [ka Ha], (to_int_eqm b) as [kb Hb].
  rewrite Ha, Hb. unfold Int.to_int.
  replace (a - ka * 4294967296 - (b - kb * 4294967296) + 2147483648)
    with (a - b + 2147483648 + (kb - ka) * 4294967296) by lia.
  rewrite Z.mod_add by lia. reflexivity.
Qed.

(** Truncation never makes a non-negative number larger. *)
Lemma to_int_le d : 0 <= d -> Int.to_int d <= d.
Proof.
  intros H. destruct (to_int_eqm d) as [k Hk].
  pose proof (to_int_range d) as R. unfold Int.is_int in R.
  assert (0 <= k) by nia. nia.
Qed.

Lemma monotone_le env : monotone env -> forall i j, (i <= j)%nat -> clock env i <= clock env j.
Proof.
  intros Hm i j Hij. induction Hij as [|j _ IH]; [lia|].
  specialize (Hm j). lia.
Qed.

Lemma steady_monotone D env : steady D env -> monotone env.
Proof. intros H k. specialize (H k). lia. Qed.

Lemma steady_lt D env : steady D env ->
  forall i j, (i <= j)%nat -> Z.of_nat (j - i) <= clock env j - clock env i.
Proof.
  intros Hs i j Hij. induction Hij as [|j Hij IH].
  - rewrite Nat.sub_diag. simpl. lia.
  - specialize (Hs j). replace (S j - i)%nat with (S (j - i)) by lia. lia.
Qed.

(** ** sleep_us *)

Section SleepFacts.

Variable env : Env.

(** The state after the clock has been read up to index [r]. *)
Definition at_reads (w : World) (r : nat) : World :=
  {| pin := pin w; reads := r; trace := trace w |}.

(** What a run of the loop of [sleep_us] guarantees, for any clock: it
    only reads the clock; the reading [j] on which it stops is the
    first one whose measured distance from [lasttime] reaches [us]. *)
Lemma sleep_us_loop_sound n us k0 :
  forall i w w',
    reads w = S i ->
    sleep_us_loop env n us (Int.to_int (clock env k0)) (Int.to_int (clock env i)) w
      = Some (tt, w') ->
    exists j, (i <= j)%nat /\ w' = at_reads w (S j) /\
              us <= Int.to_int (clock env j - clock env k0) /\
              forall l, (i <= l < j)%nat -> Int.to_int (clock env l - clock env k0) < us.
Proof.
  induction n as [|n IH]; intros i w w' Hr Hrun; simpl in Hrun;
    rewrite to_int_sub in Hrun;
    destruct (Z.ltb_spec (Int.to_int (clock env i - clock env k0)) us) as [Hlt|Hge].
  - discriminate.
  - inversion Hrun; subst w'. exists i. repeat split; try lia.
    destruct w; simpl in *; subst; reflexivity.
  - unfold bind, system_timer_current_time_us, now in Hrun. rewrite Hr in Hrun.
    apply IH in Hrun; [|reflexivity].
    destruct Hrun as (j & Hij & Hw & Hus & Hbefore).
    exists j. repeat split; try lia.
    + exact Hw.
    + intros l Hl. destruct (Nat.eq_dec l i) as [->|Hne]; [exact Hlt|].
      apply Hbefore. lia.
  - inversion Hrun; subst w'. exists i. repeat split; try lia.
    destruct w; simpl in *; subst; reflexivity.
Qed.

Lemma sleep_us_sound fuel us w w' :
  sleep_us env fuel us w = Some (tt, w') ->
  exists j, (reads w < j)%nat /\ w' = at_reads w (S j) /\
            us <= Int.to_int (clock env j - clock env (reads w)) /\
            forall l, (reads w < l < j)%nat ->
                      Int.to_int (clock env l - clock env (reads w)) < us.
Proof.
  unfold sleep_us, bind, system_timer_current_time_us, now. simpl.
  intros Hrun.
  apply (sleep_us_loop_sound fuel us (reads w) (S (reads w))) in Hrun; [|reflexivity].
  destruct Hrun as (j & Hij & Hw & Hus & Hbefore).
  exists j. repeat split; try lia.
  - exact Hw.
  - intros l Hl. apply Hbefore. lia.
Qed.

(** With a steady clock the loop stops, after at most [us] rounds. *)
Lemma sleep_us_loop_total D n us k0 :
  steady D env -> 0 <= us -> us + D < 2147483648 ->
  forall i w,
    reads w = S i -> (k0 < i)%nat ->
    clock env i - clock env k0 <= Z.max us 1 - 1 + D ->
    us - (clock env i - clock env k0) <= Z.of_nat n ->
    exists j, (i <= j)%nat /\
              sleep_us_loop env n us (Int.to_int (clock env k0)) (Int.to_int (clock env i)) w
                = Some (tt, at_reads w (S j)) /\
              us <= clock env j - clock env k0 <= Z.max us 1 - 1 + D.
Proof.
  intros Hs Hus HD. induction n as [|n IH]; intros i w Hr Hk Hhi Hn; simpl;
    rewrite to_int_sub;
    pose proof (steady_lt D env Hs k0 i ltac:(lia)) as Hlo;
    (rewrite to_int_small by (unfold Int.is_int; lia));
    destruct (Z.ltb_spec (clock env i - clock env k0) us) as [Hlt|Hge].
  - lia.
  - exists i. repeat split; try lia. destruct w; simpl in *; subst; reflexivity.
  - unfold bind, system_timer_current_time_us, now. rewrite Hr.
    pose proof (Hs i) as Hstep.
    destruct (IH (S i) (at_reads w (S (S i)))) as (j & Hij & Hrun & Hb);
      try reflexivity; try lia.
    exists j. repeat split; try lia.
    replace {| pin := pin w; reads := S (S i); trace := trace w |}
      with (at_reads w (S (S i))) by reflexivity.
    rewrite Hrun. reflexivity.
  - exists i. repeat split; try lia. destruct w; simpl in *; subst; reflexivity.
Qed.

(** [sleep_us] on a steady clock: it returns, the pin and the bus are
    untouched, and the simulated time has advanced by at least [us]
    and by at most [us] plus two clock steps. *)
Lemma sleep_us_total D fuel us w :
  steady D env -> 0 <= us -> us + D < 2147483648 -> us <= Z.of_nat fuel ->
  exists r, sleep_us env fuel us w = Some (tt, at_reads w r) /\
            (reads w < r)%nat /\
            clock env (reads w) + us <= clock env r
              <= clock env (reads w) + (Z.max us 1 - 1) + 2 * D.
Proof.
  intros Hs Hus HD Hf.
  unfold sleep_us, bind, system_timer_current_time_us, now. cbn [reads pin trace].
  pose proof (Hs (reads w)) as H0.
  destruct (sleep_us_loop_total D fuel us (reads w) Hs Hus HD (S (reads w))
              (at_reads w (S (S (reads w))))) as (j & Hij & Hrun & Hb);
    try reflexivity; try lia.
  exists (S j). split; [|split].
  - replace {| pin := pin w; reads := S (S (reads w)); trace := trace w |}
      with (at_reads w (S (S (reads w)))) by reflexivity.
    rewrite Hrun. reflexivity.
  - lia.
  - pose proof (Hs j). lia.
Qed.

End SleepFacts.

(** ** Reasoning on runs *)

(** [total m w Q]: from [w] the computation [m] returns, and the result
    and the final state satisfy [Q]. *)
Definition total {A} (m : M A) (w : World) (Q : A -> World -> Prop) : Prop :=
  exists a w', m w = Some (a, w') /\ Q a w'.

(** [partial m w Q]: whenever [m] returns from [w], [Q] holds. *)
Definition partial {A} (m : M A) (w : World) (Q : A -> World -> Prop) : Prop :=
  forall a w', m w = Some (a, w') -> Q a w'.

Lemma total_ret {A} (a : A) w (Q : A -> World -> Prop) : Q a w -> total (ret a) w Q.
Proof. intros H. exists a, w. split; [reflexivity | exact H]. Qed.

Lemma total_bind {A B} (m : M A) (k : A -> M B) w (Q : B -> World -> Prop) :
  total m w (fun a w1 => total (k a) w1 Q) -> total (bind m k) w Q.
Proof.
  intros (a & w1 & Hm & b & w2 & Hk & HQ).
  exists b, w2. unfold bind. rewrite Hm. split; assumption.
Qed.

Lemma total_weaken {A} (m : M A) w (Q Q' : A -> World -> Prop) :
  total m w Q -> (forall a w', Q a w' -> Q' a w') -> total m w Q'.
Proof. intros (a & w' & Hm & HQ) H. exists a, w'. split; [exact Hm | apply H, HQ]. Qed.

Lemma partial_ret {A} (a : A) w (Q : A -> World -> Prop) : Q a w -> partial (ret a) w Q.
Proof. intros H a' w' E. inversion E; subst. exact H. Qed.

Lemma partial_bind {A B} (m : M A) (k : A -> M B) w (Q : B -> World -> Prop) :
  partial m w (fun a w1 => partial (k a) w1 Q) -> partial (bind m k) w Q.
Proof.
  intros H b w2 E. unfold bind in E.
  destruct (m w) as [[a w1]|] eqn:Hm; [|discriminate].
  exact (H a w1 Hm b w2 E).
Qed.

Lemma partial_weaken {A} (m : M A) w (Q Q' : A -> World -> Prop) :
  partial m w Q -> (forall a w', Q a w' -> Q' a w') -> partial m w Q'.
Proof. intros H HQ a w' E. apply HQ, H, E. Qed.

(** A [for] loop keeps an invariant that each round of its body keeps. *)
Lemma for_loop_total {S} (Inv : nat -> S -> World -> Prop) (body : Z -> S -> M S) :
  forall count i acc w,
    Inv O acc w ->
    (forall k acc w, (k < count)%nat -> Inv k acc w ->
       total (body (i + Z.of_nat k) acc) w (fun acc' w' => Inv (Datatypes.S k) acc' w')) ->
    total (for_loop count i body acc) w (fun acc' w' => Inv count acc' w').
Proof.
  intros count. revert Inv.
  induction count as [|count IH]; intros Inv i acc w H0 Hstep; simpl.
  - apply total_ret, H0.
  - apply total_bind.
    eapply total_weaken.
    + specialize (Hstep O acc w ltac:(lia) H0). rewrite Z.add_0_r in Hstep. exact Hstep.
    + cbv beta. intros acc1 w1 H1.
      apply (IH (fun k => Inv (Datatypes.S k))); [exact H1|].
      intros k acc2 w2 Hk H2.
      specialize (Hstep (Datatypes.S k) acc2 w2 ltac:(lia) H2).
      replace (i + 1 + Z.of_nat k) with (i + Z.of_nat (Datatypes.S k)) by lia.
      exact Hstep.
Qed.

(** One step of a [total] or [partial] proof: the first computation of a
    sequence is handled by [spec], the rest is left as the goal. *)
Ltac step_with spec :=
  lazymatch goal with
  | |- total (bind _ _) _ _ =>
      apply total_bind; eapply total_weaken; [eapply spec; eauto | cbv beta]
  | |- partial (bind _ _) _ _ =>
      apply partial_bind; eapply partial_weaken; [eapply spec; eauto | cbv beta]
  | |- total _ _ _ => eapply total_weaken; [eapply spec; eauto | cbv beta]
  | |- partial _ _ _ => eapply partial_weaken; [eapply spec; eauto | cbv beta]
  end.

(** ** The board operations and [sleep_us] as specifications *)

Section Primitives.

Variable env : Env.
Variable fuel : nat.

(** [w'] is [w] after some bus events [new] (latest first), all of them
    on the bound pin, and some clock readings; the bound pin is unchanged. *)
Definition after (w : World) (new : list Event) (w' : World) : Prop :=
  pin w' = pin w /\ trace w' = new ++ trace w /\ (reads w <= reads w')%nat /\
  Forall (fun e => event_pin e = pin w) new.

Lemma after_refl w : after w [] w.
Proof. repeat split; try lia. constructor. Qed.

Lemma after_trans w1 w2 w3 n1 n2 :
  after w1 n1 w2 -> after w2 n2 w3 -> after w1 (n2 ++ n1) w3.
Proof.
  intros (P1 & T1 & R1 & F1) (P2 & T2 & R2 & F2). repeat split.
  - congruence.
  - rewrite T2, T1, app_assoc. reflexivity.
  - lia.
  - apply Forall_app. split; [|exact F1].
    rewrite P1 in F2. exact F2.
Qed.

Lemma setDigitalValue_total v w :
  total (setDigitalValue env v) w
    (fun _ w' => after w [Drive (pin w) v (now env w)] w' /\ now env w' = now env w).
Proof.
  eexists tt, _. split; [reflexivity|]. unfold after, now. cbn.
  repeat split; try lia. repeat constructor.
Qed.

Lemma setDigitalValue_partial v w :
  partial (setDigitalValue env v) w
    (fun _ w' => after w [Drive (pin w) v (now env w)] w' /\ now env w' = now env w).
Proof.
  intros [] w' E. inversion E; subst. unfold after, now. cbn.
  repeat split; try lia. repeat constructor.
Qed.

Lemma getDigitalValue_total w :
  total (getDigitalValue env) w
    (fun v w' => v = line env (pin w) (now env w) (trace w) /\
                 after w [Sample (pin w) v (now env w)] w' /\ now env w' = now env w).
Proof.
  eexists _, _. split; [reflexivity|]. unfold after, now. cbn.
  repeat split; try lia. repeat constructor.
Qed.

Lemma getDigitalValue_partial w :
  partial (getDigitalValue env) w
    (fun v w' => v = line env (pin w) (now env w) (trace w) /\
                 after w [Sample (pin w) v (now env w)] w' /\ now env w' = now env w).
Proof.
  intros v w' E. inversion E; subst. unfold after, now. cbn.
  repeat split; try lia. repeat constructor.
Qed.

(** For any clock that does not run backwards: when [sleep_us]
    returns, at least [us] microseconds have passed. *)
Lemma sleep_us_partial us w :
  monotone env ->
  partial (sleep_us env fuel us) w
    (fun _ w' => after w [] w' /\ now env w + us <= now env w').
Proof.
  intros Hm [] w' E. apply sleep_us_sound in E.
  destruct E as (j & Hj & -> & Hus & _).
  unfold after, now. cbn. repeat split; try lia; try constructor.
  pose proof (monotone_le env Hm (reads w) j ltac:(lia)).
  pose proof (Hm j).
  pose proof (to_int_le (clock env j - clock env (reads w)) ltac:(lia)). lia.
Qed.

Variable D : Z.
Hypothesis steady_clock : steady D env.
Hypothesis step_small : 750 + D < 2147483648.
Hypothesis fuel_enough : 750 <= Z.of_nat fuel.

(** On a steady clock [sleep_us] returns, after at least [us]
    microseconds and at most [us] and two clock steps. *)
Lemma sleep_us_spec us w :
  0 <= us <= 750 ->
  total (sleep_us env fuel us) w
    (fun _ w' => after w [] w' /\
                 now env w + us <= now env w' <= now env w + (Z.max us 1 - 1) + 2 * D).
Proof.
  intros Hus.
  destruct (sleep_us_total env D fuel us w steady_clock) as (r & E & Hr & Hb); try lia.
  exists tt, (at_reads w r). split; [exact E|].
  unfold after, now. cbn [pin reads trace at_reads app]. repeat split; try lia.
  constructor.
Qed.

End Primitives.

(** ** Write and read slots *)

(** The bit the loop of [ds18b20WiteByte] tests at index [i]. *)
Definition bit_of (data i : Z) : bool := negb (Z.land (Z.shiftr data i) 0x01 =? 0).

(** The two waits of a slot on a clock of steps up to [D]: [sleep_us 2]
    takes 2 to [1 + 2 D] microseconds, [sleep_us 60] takes 60 to
    [59 + 2 D]. *)
Definition short_wait (D d : Z) : Prop := 2 <= d <= 1 + 2 * D.
Definition long_wait (D d : Z) : Prop := 60 <= d <= 59 + 2 * D.

Ltac open_after :=
  repeat match goal with
         | H : _ /\ _ |- _ => destruct H
         | H : after _ _ _ |- _ =>
             let P := fresh "Hpin" in
             let T := fresh "Htrace" in
             let R := fresh "Hreads" in
             destruct H as (P & T & R)
         end.

Ltac close_after :=
  unfold after; cbn [app] in *;
  repeat match goal with
         | H : pin _ = _ |- _ => rewrite H in *
         end;
  repeat match goal with
         | H : trace _ = _ |- _ => rewrite H in *
         end;
  repeat match goal with
         | H : now _ _ = now _ _ |- _ => rewrite H in *
         end.

Ltac solve_after :=
  repeat split; try reflexivity; try lia; try (repeat constructor; fail).

Section Slots.

Variable env : Env.
Variable fuel : nat.

(** What a write slot does on any clock that does not run backwards. *)
Lemma write_slot_partial data i w :
  monotone env ->
  partial (write_slot env fuel data i) w
    (fun _ w' => exists t1,
         after w [Drive (pin w) true t1; Drive (pin w) false (now env w)] w' /\
         (if bit_of data i
          then 2 <= t1 - now env w /\ 60 <= now env w' - t1
          else 60 <= t1 - now env w /\ 2 <= now env w' - t1)).
Proof.
  intros Hm. unfold write_slot. fold (bit_of data i).
  destruct (bit_of data i).
  - step_with setDigitalValue_partial. intros [] w1 H1.
    step_with sleep_us_partial. intros [] w2 H2.
    step_with setDigitalValue_partial. intros [] w3 H3.
    step_with sleep_us_partial. intros [] w4 H4.
    exists (now env w2). open_after. close_after. solve_after.
  - step_with setDigitalValue_partial. intros [] w1 H1.
    step_with sleep_us_partial. intros [] w2 H2.
    step_with setDigitalValue_partial. intros [] w3 H3.
    step_with sleep_us_partial. intros [] w4 H4.
    exists (now env w2). open_after. close_after. solve_after.
Qed.

(** What a read slot does on any clock that does not run backwards. *)
Lemma ds18b20ReadBit_partial w :
  monotone env ->
  partial (ds18b20ReadBit env fuel) w
    (fun bit w' => exists t1 t2 v,
         after w [Sample (pin w) v t2; Drive (pin w) true t1;
                  Drive (pin w) false (now env w)] w' /\
         v = line env (pin w) t2
               (Drive (pin w) true t1 :: Drive (pin w) false (now env w) :: trace w) /\
         bit = (if v then 1 else 0) /\
         2 <= t1 - now env w /\ 5 <= t2 - t1 /\ 60 <= now env w' - t2).
Proof.
  intros Hm. unfold ds18b20ReadBit.
  step_with setDigitalValue_partial. intros [] w1 H1.
  step_with sleep_us_partial. intros [] w2 H2.
  step_with setDigitalValue_partial. intros [] w3 H3.
  step_with sleep_us_partial. intros [] w4 H4.
  step_with getDigitalValue_partial. intros v w5 H5.
  step_with sleep_us_partial. intros [] w6 H6.
  apply partial_ret.
  exists (now env w2), (now env w4), v. open_after. close_after.
  solve_after. assumption.
Qed.

Variable D : Z.
Hypothesis steady_clock : steady D env.
Hypothesis step_small : 750 + D < 2147483648.
Hypothesis fuel_enough : 750 <= Z.of_nat fuel.

Let sleep_ok := sleep_us_spec env fuel D steady_clock step_small fuel_enough.

(** On a steady clock a write slot returns, with both waits bounded
    from above as well. *)
Lemma write_slot_spec data i w :
  total (write_slot env fuel data i) w
    (fun _ w' => exists t1,
         after w [Drive (pin w) true t1; Drive (pin w) false (now env w)] w' /\
         (if bit_of data i
          then short_wait D (t1 - now env w) /\ long_wait D (now env w' - t1)
          else long_wait D (t1 - now env w) /\ short_wait D (now env w' - t1))).
Proof.
  unfold write_slot, short_wait, long_wait. fold (bit_of data i).
  destruct (bit_of data i).
  - step_with setDigitalValue_total. intros [] w1 H1.
    step_with (sleep_ok 2); [lia|]. intros [] w2 H2.
    step_with setDigitalValue_total. intros [] w3 H3.
    step_with (sleep_ok 60); [lia|]. intros [] w4 H4.
    exists (now env w2). open_after. close_after. solve_after.
  - step_with setDigitalValue_total. intros [] w1 H1.
    step_with (sleep_ok 60); [lia|]. intros [] w2 H2.
    step_with setDigitalValue_total. intros [] w3 H3.
    step_with (sleep_ok 2); [lia|]. intros [] w4 H4.
    exists (now env w2). open_after. close_after. solve_after.
Qed.

(** On a steady clock a read slot returns; the sample is taken between
    7 and [5 + 4 * D] microseconds after the start of the slot. *)
Lemma ds18b20ReadBit_spec w :
  total (ds18b20ReadBit env fuel) w
    (fun bit w' => exists t1 t2 v,
         after w [Sample (pin w) v t2; Drive (pin w) true t1;
                  Drive (pin w) false (now env w)] w' /\
         v = line env (pin w) t2
               (Drive (pin w) true t1 :: Drive (pin w) false (now env w) :: trace w) /\
         bit = (if v then 1 else 0) /\
         short_wait D (t1 - now env w) /\
         5 <= t2 - t1 <= 4 + 2 * D /\
         long_wait D (now env w' - t2)).
Proof.
  unfold ds18b20ReadBit, short_wait, long_wait.
  step_with setDigitalValue_total. intros [] w1 H1.
  step_with (sleep_ok 2); [lia|]. intros [] w2 H2.
  step_with setDigitalValue_total. intros [] w3 H3.
  step_with (sleep_ok 5); [lia|]. intros [] w4 H4.
  step_with getDigitalValue_total. intros v w5 H5.
  step_with (sleep_ok 60); [lia|]. intros [] w6 H6.
  apply total_ret.
  exists (now env w2), (now env w4), v. open_after. close_after.
  solve_after. assumption.
Qed.

End Slots.

(** ** Bytes *)

(** The bits of [data] in the order [ds18b20WiteByte] sends them: the
    first [k] of them, bit 0 first. *)
Definition bits_upto (data : Z) (k : nat) : list bool :=
  map (fun j => bit_of data (Z.of_nat j)) (seq 0 k).

(** [wslots D p bits new]: the events [new] (latest first) are write
    slots on pin [p], one for each of [bits] in order, the low time of a
    slot being short for a 1 and long for a 0. *)
Inductive wslots (D : Z) (p : PinName) : list bool -> list Event -> Prop :=
| wslots_nil : wslots D p [] []
| wslots_snoc (bits : list bool) (b : bool) (new : list Event) (t0 t1 : Z) :
    wslots D p bits new ->
    (if b then short_wait D (t1 - t0) else long_wait D (t1 - t0)) ->
    wslots D p (bits ++ [b]) (Drive p true t1 :: Drive p false t0 :: new).

Lemma bits_upto_S data k :
  bits_upto data (S k) = bits_upto data k ++ [bit_of data (Z.of_nat k)].
Proof. unfold bits_upto. rewrite seq_S, map_app. reflexivity. Qed.

Section Bytes.

Variable env : Env.
Variable fuel : nat.
Variable D : Z.
Hypothesis steady_clock : steady D env.
Hypothesis step_small : 750 + D < 2147483648.
Hypothesis fuel_enough : 750 <= Z.of_nat fuel.

Let sleep_ok := sleep_us_spec env fuel D steady_clock step_small fuel_enough.
Let slot_ok := write_slot_spec env fuel D steady_clock step_small fuel_enough.
Let bit_ok := ds18b20ReadBit_spec env fuel D steady_clock step_small fuel_enough.

(** [ds18b20WiteByte] returns, having put on the bus eight write slots
    that carry the bits of [data], bit 0 first. *)
Lemma ds18b20WiteByte_spec data w :
  total (ds18b20WiteByte env fuel data) w
    (fun _ w' => exists new,
         after w new w' /\ wslots D (pin w) (bits_upto (Int.to_uint8 data) 8) new).
Proof.
  unfold ds18b20WiteByte. cbv zeta. generalize (Int.to_uint8 data). clear data. intros data.
  apply (for_loop_total
           (fun k (_ : unit) w' =>
              exists new, after w new w' /\ wslots D (pin w) (bits_upto data k) new)).
  - exists []. split; [apply after_refl | constructor].
  - intros k [] w1 Hk (new & Hnew & Hslots). cbn [Z.add].
    step_with slot_ok. intros [] w2 (t1 & Hstep & Hwait).
    exists ([Drive (pin w1) true t1; Drive (pin w1) false (now env w1)] ++ new).
    split; [eapply after_trans; eassumption|].
    destruct Hnew as (-> & _). cbn [app].
    rewrite bits_upto_S. constructor; [exact Hslots|].
    destruct (bit_of data (Z.of_nat k)); tauto.
Qed.

(** [ds18b20ReadByte] returns, whatever the line does. *)
Lemma ds18b20ReadByte_total w :
  total (ds18b20ReadByte env fuel) w
    (fun data w' => exists new, after w new w' /\ Int.is_uint8 data).
Proof.
  unfold ds18b20ReadByte.
  apply total_bind.
  eapply total_weaken.
  - apply (for_loop_total
             (fun (k : nat) (data : Z) w' =>
                exists new, after w new w' /\ (k = 0%nat -> data = 0) /\
                            (k <> 0%nat -> Int.is_uint8 data))).
    + exists []. split; [apply after_refl|]. split; [reflexivity | congruence].
    + intros k data w1 Hk (new & Hnew & _). unfold read_step.
      step_with bit_ok. intros bit w2 (t1 & t2 & v & Hbit & _).
      step_with (sleep_ok 2); [lia|]. intros [] w3 (Hs & _).
      apply total_ret.
      eexists. split; [eapply after_trans; [|eassumption]; eapply after_trans; eassumption|].
      split; [discriminate|]. intros _. unfold Int.is_uint8, Int.to_uint8.
      apply Z.mod_pos_bound. lia.
  - cbv beta. intros data w1 (new & Hnew & _ & Hdata).
    step_with (sleep_ok 2); [lia|]. intros [] w2 (Hs & _).
    apply total_ret. eexists. split; [eapply after_trans; eassumption|].
    apply Hdata. discriminate.
Qed.

End Bytes.

(** ** Reset and presence *)

Definition event_level (e : Event) : bool :=
  match e with Drive _ v _ | Sample _ v _ => v end.

Definition is_sample (e : Event) : Prop :=
  match e with Sample _ _ _ => True | Drive _ _ _ => False end.

(** The levels read by the samples of [new], in the order they were read. *)
Definition observed (new : list Event) : list bool := rev (map event_level new).

(** Every level recorded in a history is the level the line had: the
    one [line] gives for the pin, the time and the history before. *)
Fixpoint faithful (env : Env) (h : list Event) : Prop :=
  match h with
  | [] => True
  | Sample p v t :: h' => v = line env p t h' /\ faithful env h'
  | Drive _ _ _ :: h' => faithful env h'
  end.

Lemma poll_while_unfold env fuel n level limit state :
  poll_while env fuel n level limit state =
  (v <- getDigitalValue env ;;
   if Bool.eqb v level then
     sleep_us env fuel 1 ;;
     if limit <=? state + 1 then ret (state + 1)
     else match n with
          | O => out_of_fuel
          | S n' => poll_while env fuel n' level limit (state + 1)
          end
   else ret state).
Proof. destruct n; reflexivity. Qed.

Lemma rev_repeat_bool (b : bool) k : rev (repeat b k) = repeat b k.
Proof.
  induction k as [|k IH]; [reflexivity|].
  simpl. rewrite IH. symmetry. apply (repeat_cons k b).
Qed.

Ltac poll_done Ev Hv :=
  cbn [app map event_level repeat]; repeat split; try lia;
  try (repeat constructor; fail);
  try (rewrite ?Ev; reflexivity);
  try (intros ?; open_after; close_after; cbn; rewrite <- ?Hv; tauto).

Section Presence.

Variable env : Env.
Variable fuel : nat.
Variable D : Z.
Hypothesis steady_clock : steady D env.
Hypothesis step_small : 750 + D < 2147483648.
Hypothesis fuel_enough : 750 <= Z.of_nat fuel.

Let sleep_ok := sleep_us_spec env fuel D steady_clock step_small fuel_enough.

Lemma step_positive : 1 <= D.
Proof. pose proof (steady_clock O). lia. Qed.

Lemma ds18b20Rest_spec w :
  total (ds18b20Rest env fuel) w
    (fun _ w' => exists t1,
         after w [Drive (pin w) true t1; Drive (pin w) false (now env w)] w' /\
         750 <= t1 - now env w /\ 15 <= now env w' - t1).
Proof.
  unfold ds18b20Rest.
  step_with setDigitalValue_total. intros [] w1 H1.
  step_with (sleep_ok 750); [lia|]. intros [] w2 H2.
  step_with setDigitalValue_total. intros [] w3 H3.
  step_with (sleep_ok 15); [lia|]. intros [] w4 H4.
  exists (now env w2). open_after. close_after. solve_after.
Qed.

(** One polling loop of [ds18b20Check]: it reads the line until the level
    is no longer [level], or until it has counted up to [limit]. *)
Lemma poll_while_spec level limit :
  forall n state w,
    0 <= state < limit -> limit <= 750 ->
    limit - state - 1 <= Z.of_nat n ->
    total (poll_while env fuel n level limit state) w
      (fun state' w' => exists new (k : nat),
           after w new w' /\
           state' = state + Z.of_nat k /\ state' <= limit /\
           map event_level new
             = (if limit <=? state' then [] else [negb level]) ++ repeat level k /\
           Forall is_sample new /\
           (faithful env (trace w) -> faithful env (trace w')) /\
           now env w' <= now env w + 2 * D * Z.of_nat k).
Proof.
  induction n as [|n IH]; intros state w Hstate Hlimit Hn;
    rewrite poll_while_unfold;
    (step_with getDigitalValue_total; intros v w1 (Hv & H1 & N1));
    (destruct (Bool.eqb v level) eqn:Ev;
     [ apply eqb_prop in Ev;
       step_with (sleep_ok 1); [lia|]; intros [] w2 (H2 & N2);
       destruct (Z.leb_spec limit (state + 1)) as [Hl|Hl]
     | ]).
  - apply total_ret. eexists _, 1%nat.
    split; [eapply after_trans; eassumption|].
    destruct (Z.leb_spec limit (state + 1)); [|lia]. poll_done Ev Hv.
  - lia.
  - apply total_ret. exists [Sample (pin w) v (now env w)], 0%nat.
    split; [exact H1|].
    destruct (Z.leb_spec limit state); [lia|]. poll_done Ev Hv.
    f_equal. clear Hv H1. destruct v, level; try reflexivity; discriminate Ev.
  - apply total_ret. eexists _, 1%nat.
    split; [eapply after_trans; eassumption|].
    destruct (Z.leb_spec limit (state + 1)); [|lia]. poll_done Ev Hv.
  - step_with (IH (state + 1) w2); try lia.
    intros state' w3 (new & k & H3 & Hs' & Hle & Hlv & Hsm & Hfa & Hnow).
    exists (new ++ ([] ++ [Sample (pin w) v (now env w)])), (S k).
    split; [eapply after_trans; [|eassumption]; eapply after_trans; eassumption|].
    repeat split; try lia.
    + rewrite map_app, Hlv. cbn [app map event_level].
      rewrite <- app_assoc. f_equal. rewrite Ev.
      change (repeat level k ++ [level] = repeat level (S k)).
      symmetry. apply (repeat_cons k level).
    + apply Forall_app. split; [exact Hsm | repeat constructor].
    + intros Hf. apply Hfa. open_after. close_after. cbn. tauto.
  - apply total_ret. exists [Sample (pin w) v (now env w)], 0%nat.
    split; [exact H1|].
    destruct (Z.leb_spec limit state); [lia|]. poll_done Ev Hv.
    f_equal. clear Hv H1. destruct v, level; try reflexivity; discriminate Ev.
Qed.

(** What the result of [ds18b20Check] says about the levels [obs] it
    read, in the order it read them. *)
Definition presence_outcome (obs : list bool) (ok : bool) : Prop :=
  (ok = false /\ obs = repeat true 200) \/
  (ok = false /\ exists j, (j < 200)%nat /\ obs = repeat true j ++ repeat false 241) \/
  (ok = true /\ exists j m, (j < 200)%nat /\ (m < 240)%nat /\
                           obs = repeat true j ++ repeat false (S m) ++ [true]).

Lemma ds18b20Check_spec w :
  total (ds18b20Check env fuel) w
    (fun ok w' => exists new,
         after w new w' /\
         Forall is_sample new /\
         (faithful env (trace w) -> faithful env (trace w')) /\
         presence_outcome (observed new) ok /\
         (length new <= 440)%nat /\
         now env w' <= now env w + 2 * D * Z.of_nat (length new)).
Proof.
  unfold ds18b20Check.
  step_with (poll_while_spec true 200 fuel 0 w); try lia.
  intros s1 w1 (new1 & k1 & H1 & Hs1 & Hle1 & Hlv1 & Hsm1 & Hfa1 & Hnow1).
  assert (Hlen1 : length new1 = length (map event_level new1)) by (symmetry; apply length_map).
  rewrite Hlv1, length_app, repeat_length in Hlen1.
  destruct (Z.leb_spec 200 s1) as [Hfull|Hlow].
  - apply total_ret. exists new1. cbn [app length] in *.
    pose proof step_positive.
    split; [exact H1|]. repeat split; try assumption; try nia.
    left. split; [reflexivity|].
    unfold observed. rewrite Hlv1. cbn [app]. rewrite rev_repeat_bool.
    f_equal. lia.
  - step_with (poll_while_spec false 240 fuel 0 w1); try lia.
    intros s2 w2 (new2 & k2 & H2 & Hs2 & Hle2 & Hlv2 & Hsm2 & Hfa2 & Hnow2).
    assert (Hlen2 : length new2 = length (map event_level new2))
      by (symmetry; apply length_map).
    rewrite Hlv2, length_app, repeat_length in Hlen2.
    assert (Hobs : observed (new2 ++ new1)
                   = repeat true k1 ++ [false] ++ repeat false k2
                     ++ rev (if 240 <=? s2 then [] else [negb false])).
    { unfold observed. rewrite map_app, rev_app_distr, Hlv1, Hlv2.
      rewrite !rev_app_distr, !rev_repeat_bool. cbn [negb rev app].
      rewrite <- !app_assoc. reflexivity. }
    destruct (Z.leb_spec 240 s2) as [Hstuck|Hfree]; apply total_ret;
      exists (new2 ++ new1); cbn [app length negb rev] in *;
      (split; [eapply after_trans; eassumption|]);
      (split; [apply Forall_app; split; assumption|]);
      (split; [tauto|]);
      rewrite Hobs, length_app; pose proof step_positive;
      (split; [|split; [lia|nia]]).
    + right. left. split; [reflexivity|]. exists k1. split; [lia|].
      rewrite app_nil_r. f_equal.
      replace k2 with 240%nat by lia. reflexivity.
    + right. right. split; [reflexivity|]. exists k1, k2.
      repeat split; try lia.
Qed.

End Presence.

(** ** Transactions *)

Section Transactions.

Variable env : Env.
Variable fuel : nat.
Variable D : Z.
Hypothesis steady_clock : steady D env.
Hypothesis step_small : 750 + D < 2147483648.
Hypothesis fuel_enough : 750 <= Z.of_nat fuel.

Let sleep_ok := sleep_us_spec env fuel D steady_clock step_small fuel_enough.
Let rest_ok := ds18b20Rest_spec env fuel D steady_clock step_small fuel_enough.
Let check_ok := ds18b20Check_spec env fuel D steady_clock step_small fuel_enough.
Let write_ok := ds18b20WiteByte_spec env fuel D steady_clock step_small fuel_enough.
Let read_ok := ds18b20ReadByte_total env fuel D steady_clock step_small fuel_enough.

(** The conversion-start transaction: whatever the presence check
    answers ([ok]), the reset and the samples of the check are followed
    by the sixteen write slots of the bytes CCh and 44h. *)
Lemma ds18b20Start_spec w :
  total (ds18b20Start env fuel) w
    (fun _ w' => exists ok t1 chk cmd1 cmd2,
         after w (cmd2 ++ cmd1 ++ chk ++
                  [Drive (pin w) true t1; Drive (pin w) false (now env w)]) w' /\
         Forall is_sample chk /\ presence_outcome (observed chk) ok /\
         wslots D (pin w) (bits_upto 0xCC 8) cmd1 /\
         wslots D (pin w) (bits_upto 0x44 8) cmd2).
Proof.
  unfold ds18b20Start.
  step_with rest_ok. intros [] w1 (t1 & H1 & _).
  step_with check_ok. intros ok w2 (chk & H2 & Hsm & _ & Hout & _).
  step_with (sleep_ok 2); [lia|]. intros [] w3 (H3 & _).
  step_with write_ok. intros [] w4 (cmd1 & H4 & Hc1).
  step_with write_ok. intros [] w5 (cmd2 & H5 & Hc2).
  exists ok, t1, chk, cmd1, cmd2.
  assert (P3 : pin w3 = pin w) by (open_after; congruence).
  assert (P4 : pin w4 = pin w) by (open_after; congruence).
  rewrite P3 in Hc1. rewrite P4 in Hc2.
  split; [|repeat split; assumption].
  pose proof (after_trans _ _ _ _ _ (after_trans _ _ _ _ _
    (after_trans _ _ _ _ _ (after_trans _ _ _ _ _ H1 H2) H3) H4) H5) as H.
  cbn [app] in H. exact H.
Qed.

(** [ds18b20GetTemperture] returns: the two transactions run to their
    end and the two bytes read are decoded, whatever the two presence
    checks answered. *)
Lemma ds18b20GetTemperture_spec w :
  total (ds18b20GetTemperture env fuel) w
    (fun t w' => exists new TH TL,
         after w new w' /\ new <> [] /\
         Int.is_uint8 TH /\ Int.is_uint8 TL /\ t = decode TH TL).
Proof.
  unfold ds18b20GetTemperture.
  step_with ds18b20Start_spec. intros [] w1 (ok1 & t0 & chk & c1 & c2 & H1 & _).
  step_with (sleep_ok 100); [lia|]. intros [] w2 (H2 & _).
  step_with rest_ok. intros [] w3 (t1 & H3 & _).
  step_with check_ok. intros ok2 w4 (chk2 & H4 & _).
  step_with (sleep_ok 2); [lia|]. intros [] w5 (H5 & _).
  step_with write_ok. intros [] w6 (cmd1 & H6 & _).
  step_with write_ok. intros [] w7 (cmd2 & H7 & _).
  step_with read_ok. intros TL w8 (r1 & H8 & HTL).
  step_with (sleep_ok 100); [lia|]. intros [] w9 (H9 & _).
  step_with read_ok. intros TH w10 (r2 & H10 & HTH).
  apply total_ret.
  pose proof (after_trans _ _ _ _ _ (after_trans _ _ _ _ _ (after_trans _ _ _ _ _
    (after_trans _ _ _ _ _ (after_trans _ _ _ _ _ (after_trans _ _ _ _ _
    (after_trans _ _ _ _ _ (after_trans _ _ _ _ _ (after_trans _ _ _ _ _
       H1 H2) H3) H4) H5) H6) H7) H8) H9) H10) as H.
  eexists _, TH, TL. split; [exact H|].
  repeat split; try apply HTH; try apply HTL.
  intros E. apply app_eq_nil in E. destruct E as [_ E].
  repeat (apply app_eq_nil in E; destruct E as [_ E]). discriminate E.
Qed.

(** [temperature] binds the selected pin and runs the transactions on it. *)
Lemma temperature_spec p w :
  total (temperature env fuel p) w
    (fun t w' => exists new TH TL,
         pin w' = select_pin p /\
         trace w' = new ++ trace w /\ new <> [] /\
         Forall (fun e => event_pin e = select_pin p) new /\
         Int.is_uint8 TH /\ Int.is_uint8 TL /\ t = decode TH TL).
Proof.
  unfold temperature.
  apply total_bind. eexists tt, _. split; [reflexivity|].
  step_with ds18b20GetTemperture_spec.
  intros t w' (new & TH & TL & (Hp & Ht & _ & Hon) & Hne & HTH & HTL & Hd).
  exists new, TH, TL. cbn [pin trace] in *. repeat split; assumption || apply HTH || apply HTL.
Qed.

End Transactions.

(** ** The loopback line *)

(** The loopback line of the round-trip property: a simulated device on
    the bus, not a part of the driver.  It is the one assumption of that
    property about what is on the other end of the line.  The device
    times every low pulse of the master: released
    within 15 microseconds it stands for a 1, held longer for a 0.  A
    pulse that is followed by another pulse was a write slot, and its
    level is queued; a pulse that is followed by a sample was the start
    of a read slot, and the sample reads the oldest queued level that has
    not been read yet (the idle level, high, when there is none). *)
Record Mock := {
  low_since : option Z;     (* when the line was pulled low, if it is low *)
  pending : option bool;    (* the level of the last pulse, not yet queued *)
  fifo : list bool;         (* the levels written, oldest first *)
  nread : nat               (* how many samples were answered *)
}.

Definition mock_init : Mock :=
  {| low_since := None; pending := None; fifo := []; nread := 0 |}.

(** The queue once the pending pulse has turned out to be a write slot. *)
Definition committed (m : Mock) : list bool :=
  fifo m ++ match pending m with Some b => [b] | None => [] end.

Definition mock_step (e : Event) (m : Mock) : Mock :=
  match e with
  | Drive _ false t =>
      {| low_since := Some t; pending := None; fifo := committed m; nread := nread m |}
  | Drive _ true t =>
      match low_since m with
      | Some t0 => {| low_since := None; pending := Some (t - t0 <? 15);
                      fifo := fifo m; nread := nread m |}
      | None => m
      end
  | Sample _ _ _ =>
      {| low_since := low_since m; pending := None; fifo := fifo m; nread := S (nread m) |}
  end.

(** The state of the device after a history (latest event first). *)
Fixpoint mock (h : list Event) : Mock :=
  match h with
  | [] => mock_init
  | e :: h' => mock_step e (mock h')
  end.

Definition loopback (p : PinName) (t : Z) (h : list Event) : bool :=
  let m := mock h in nth (nread m) (fifo m) true.

(** Every queued level has been read back. *)
Definition drained (h : list Event) : Prop :=
  nread (mock h) = length (committed (mock h)).

(** A clock that advances by one microsecond at each reading, and the
    board with that clock and the loopback line. *)
Definition loopback_env : Env := {| clock := Z.of_nat; line := loopback |}.

(** All values of a byte, and all bit indices of a byte. *)
Definition all_bytes : list Z := map Z.of_nat (seq 0 256).

Lemma all_bytes_spec v : Int.is_uint8 v -> In v all_bytes.
Proof.
  unfold Int.is_uint8, all_bytes. intros H.
  apply in_map_iff. exists (Z.to_nat v). split; [lia|].
  apply in_seq. lia.
Qed.

(** One round of the loop of [ds18b20ReadByte] adds bit [k] of the byte
    that was written to the bits below [k]. *)
Lemma assemble_step data (k : nat) :
  Int.is_uint8 data -> (k < 8)%nat ->
  Int.to_uint8 (Z.lor (data mod 2 ^ Z.of_nat k)
                  (Z.shiftl (if bit_of data (Z.of_nat k) then 1 else 0) (Z.of_nat k)))
  = data mod 2 ^ Z.of_nat (S k).
Proof.
  intros Hd Hk.
  assert (Hall : forallb (fun d => forallb (fun j =>
            Int.to_uint8 (Z.lor (d mod 2 ^ Z.of_nat j)
                            (Z.shiftl (if bit_of d (Z.of_nat j) then 1 else 0) (Z.of_nat j)))
            =? d mod 2 ^ Z.of_nat (S j)) (seq 0 8)) all_bytes = true)
    by (vm_compute; reflexivity).
  rewrite forallb_forall in Hall. specialize (Hall data (all_bytes_spec data Hd)).
  rewrite forallb_forall in Hall. specialize (Hall k).
  apply Z.eqb_eq, Hall, in_seq. lia.
Qed.

Lemma nth_bits_upto data (k n : nat) :
  (k < n)%nat -> nth k (bits_upto data n) true = bit_of data (Z.of_nat k).
Proof.
  intros Hk. unfold bits_upto.
  rewrite (nth_indep _ true (bit_of data (Z.of_nat 0))) by (rewrite length_map, length_seq; lia).
  rewrite (map_nth (fun j => bit_of data (Z.of_nat j))), seq_nth by lia.
  reflexivity.
Qed.

(** Write slots made with a clock of steps up to 6 microseconds are
    told apart by the device: it queues the bits sent, in order, and
    answers no sample. *)
Lemma mock_wslots D p bits new h :
  D <= 6 -> wslots D p bits new ->
  committed (mock (new ++ h)) = committed (mock h) ++ bits /\
  nread (mock (new ++ h)) = nread (mock h).
Proof.
  intros HD Hw. induction Hw as [|bits b new t0 t1 Hw [IHc IHn] Hwait].
  - rewrite app_nil_r. split; reflexivity.
  - cbn [app mock mock_step low_since pending fifo nread committed].
    fold (committed (mock (new ++ h))). rewrite IHc, IHn, <- app_assoc.
    split; [|reflexivity]. do 3 f_equal.
    unfold short_wait, long_wait in Hwait.
    destruct b; [apply Z.ltb_lt | apply Z.ltb_ge]; lia.
Qed.

Section Loopback.

Variable env : Env.
Variable fuel : nat.
Variable D : Z.
Hypothesis steady_clock : steady D env.
Hypothesis step_small : D <= 6.
Hypothesis fuel_enough : 750 <= Z.of_nat fuel.
Hypothesis loopback_line : forall p t h, line env p t h = loopback p t h.

Let step_small' : 750 + D < 2147483648.
Proof. lia. Qed.

Let sleep_ok := sleep_us_spec env fuel D steady_clock step_small' fuel_enough.
Let bit_ok := ds18b20ReadBit_spec env fuel D steady_clock step_small' fuel_enough.
Let write_ok := ds18b20WiteByte_spec env fuel D steady_clock step_small' fuel_enough.

(** A read slot on the loopback line reads the queued level that is
    next, and leaves the queue as it is. *)
Lemma ds18b20ReadBit_loopback w :
  total (ds18b20ReadBit env fuel) w
    (fun bit w' =>
       (exists new, after w new w') /\
       bit = (if nth (nread (mock (trace w))) (committed (mock (trace w))) true
              then 1 else 0) /\
       committed (mock (trace w')) = committed (mock (trace w)) /\
       nread (mock (trace w')) = S (nread (mock (trace w)))).
Proof.
  step_with bit_ok. intros bit w1 (t1 & t2 & v & H1 & Hv & Hbit & _).
  rewrite loopback_line in Hv. unfold loopback in Hv.
  destruct H1 as (P1 & T1 & R1 & F1).
  split; [eexists; repeat split; eassumption|].
  rewrite T1. cbn [app mock mock_step low_since pending fifo nread committed] in *.
  fold (committed (mock (trace w))) in *.
  rewrite app_nil_r. subst bit v. repeat split; reflexivity.
Qed.

(** [ds18b20ReadByte] on the loopback line, when the eight levels that
    are next in the queue are the bits of [data]: it returns [data]. *)
Lemma ds18b20ReadByte_loopback data queue w :
  Int.is_uint8 data ->
  committed (mock (trace w)) = queue ++ bits_upto data 8 ->
  nread (mock (trace w)) = length queue ->
  total (ds18b20ReadByte env fuel) w
    (fun r w' => r = data /\ (exists new, after w new w') /\ drained (trace w')).
Proof.
  intros Hdata Hq Hn. unfold ds18b20ReadByte.
  apply total_bind.
  eapply total_weaken.
  - apply (for_loop_total
             (fun (k : nat) (acc : Z) w' =>
                acc = data mod 2 ^ Z.of_nat k /\
                (exists new, after w new w') /\
                committed (mock (trace w')) = queue ++ bits_upto data 8 /\
                nread (mock (trace w')) = (length queue + k)%nat)).
    + repeat split.
      * rewrite Z.mod_1_r. reflexivity.
      * exists []. apply after_refl.
      * exact Hq.
      * lia.
    + intros k acc w1 Hk (Hacc & (new & Hnew) & Hq1 & Hn1). unfold read_step.
      step_with ds18b20ReadBit_loopback.
      intros bit w2 ((new2 & Hnew2) & Hbit & Hq2 & Hn2).
      step_with (sleep_ok 2); [lia|]. intros [] w3 (H3 & _).
      apply total_ret.
      rewrite Hq1, Hn1, app_nth2_plus, nth_bits_upto in Hbit by exact Hk.
      assert (T3 : trace w3 = trace w2) by (destruct H3 as (_ & T & _); exact T).
      rewrite T3, Hq2, Hn2, Hq1, Hn1. subst acc bit. cbn [Z.add].
      repeat split.
      * apply assemble_step; assumption.
      * eexists. eapply after_trans; [|eassumption].
        eapply after_trans; eassumption.
      * lia.
  - cbv beta. intros acc w1 (Hacc & (new & Hnew) & Hq1 & Hn1).
    step_with (sleep_ok 2); [lia|]. intros [] w2 (H2 & _).
    apply total_ret.
    assert (T2 : trace w2 = trace w1) by (destruct H2 as (_ & T & _); exact T).
    repeat split.
    + subst acc. unfold Int.is_uint8 in Hdata. apply Z.mod_small.
      change (2 ^ Z.of_nat 8) with 256. lia.
    + eexists. eapply after_trans; eassumption.
    + unfold drained. rewrite T2, Hq1, Hn1, length_app.
      unfold bits_upto. rewrite length_map, length_seq. reflexivity.
Qed.

(** A byte written and read back on the loopback line. *)
Lemma write_read_loopback data w :
  Int.is_uint8 data -> drained (trace w) ->
  total (ds18b20WiteByte env fuel data ;; ds18b20ReadByte env fuel) w
    (fun r w' => r = data /\ drained (trace w')).
Proof.
  intros Hdata Hdr.
  step_with write_ok. intros [] w1 (new & (P1 & T1 & _) & Hslots).
  replace (Int.to_uint8 data) with data in Hslots
    by (symmetry; apply Z.mod_small, Hdata).
  destruct (mock_wslots D (pin w) _ new (trace w) step_small Hslots) as [Hc Hn].
  rewrite <- T1 in Hc, Hn.
  step_with (ds18b20ReadByte_loopback data (committed (mock (trace w))) w1); try assumption.
  - rewrite Hn. exact Hdr.
  - intros r w2 (Hr & _ & Hd). split; assumption.
Qed.

End Loopback.

(** ** The decoder: what it computes *)

Lemma has_valueb_spec x q : F.has_valueb x q = true <-> F.has_value x q.
Proof.
  unfold F.has_valueb, F.has_value. destruct (F.value x) as [v|].
  - apply Qeq_bool_iff.
  - split; [discriminate | tauto].
Qed.

(** The sums of two bytes. *)
Definition byte_sums : list Z := map Z.of_nat (seq 0 511).

Lemma byte_sums_spec TH TL :
  Int.is_uint8 TH -> Int.is_uint8 TL -> In (TH + TL) byte_sums.
Proof.
  unfold Int.is_uint8, byte_sums. intros H L.
  apply in_map_iff. exists (Z.to_nat (TH + TL)). split; [lia|].
  apply in_seq. lia.
Qed.

Lemma combine_is_sum TH TL :
  Int.is_uint8 TH -> Int.is_uint8 TL -> combine TH TL = TH + TL.
Proof.
  unfold Int.is_uint8, combine, Int.to_uint16. intros H L.
  rewrite (Z.mod_small TH) by lia. apply Z.mod_small. lia.
Qed.

(** For every sum of two bytes the sign test fails and the product with
    0.0625 is exact, in [double] and after the conversion to [float]. *)
Lemma decode_word_small n :
  In n byte_sums ->
  sign_pattern n = false /\ F.has_value (decode_word n) (inject_Z n * 0.0625).
Proof.
  intros Hn.
  assert (Hall : forallb (fun n => negb (sign_pattern n) &&
                                   F.has_valueb (decode_word n) (inject_Z n * 0.0625))
                   byte_sums = true) by (vm_compute; reflexivity).
  rewrite forallb_forall in Hall. specialize (Hall n Hn).
  apply andb_true_iff in Hall. destruct Hall as [Hs Hv].
  split; [apply negb_true_iff, Hs | apply has_valueb_spec, Hv].
Qed.

(** C1 (the code departs from it).  With [TH = 0x07] and [TL = 0xD0] the
    word of the specification is 0x07D0 = 2000 and stands for 125.0, but
    the code decodes 0x07 + 0xD0 = 215 and returns 13.4375.  With
    [TH = 0x00] the two agree: [TL = 0x64] gives 6.25. *)
Theorem decode_positive_examples :
  spec_combine 0x07 0xD0 = 2000 /\ F.has_value (spec_decode 0x07 0xD0) 125 /\
  combine 0x07 0xD0 = 215 /\ F.has_value (decode 0x07 0xD0) 13.4375 /\
  ~ F.has_value (decode 0x07 0xD0) 125 /\
  F.has_value (decode 0x00 0x64) 6.25.
Proof.
  repeat split; try (vm_compute; reflexivity).
  intros H. vm_compute in H. discriminate H.
Qed.

(** C2 (the code departs from it).  With [TH = 0xFF] and [TL = 0x9C] the
    word of the specification is 0xFF9C, the sign pattern is there and
    the value is -6.25; the code decodes 0xFF + 0x9C = 411, on which the
    sign test fails, and returns 25.6875.  With [TL = 0xF8] the
    specification gives -0.5 and the code 31.4375. *)
Theorem decode_negative_examples :
  sign_pattern (spec_combine 0xFF 0x9C) = true /\
  F.has_value (spec_decode 0xFF 0x9C) (-6.25) /\
  F.has_value (spec_decode 0xFF 0xF8) (-0.5) /\
  combine 0xFF 0x9C = 411 /\ sign_pattern (combine 0xFF 0x9C) = false /\
  F.has_value (decode 0xFF 0x9C) 25.6875 /\
  ~ F.has_value (decode 0xFF 0x9C) (-6.25) /\
  F.has_value (decode 0xFF 0xF8) 31.4375 /\
  ~ F.has_value (decode 0xFF 0xF8) (-0.5).
Proof.
  repeat split; try (vm_compute; reflexivity);
    intros H; vm_compute in H; discriminate H.
Qed.

(** ** The delay and the slots: the statements *)

(** A board whose clock advances by one microsecond at each reading and
    whose line is never pulled low: no sensor is attached. *)
Definition no_sensor : Env := {| clock := Z.of_nat; line := fun _ _ _ => true |}.

Lemma no_sensor_steady : steady 1 no_sensor.
Proof. intros k. cbn [clock no_sensor]. lia. Qed.

Lemma loopback_env_steady : steady 1 loopback_env.
Proof. intros k. cbn [clock loopback_env]. lia. Qed.

(** C9. For every [us >= 0] and every clock that does not run backwards:
    when [sleep_us us] returns it has done nothing but read the clock,
    the last reading [j] is at least [us] microseconds after the first
    one (the start time), and no reading in between had reached [us];
    and on a clock that advances at each reading it does return. *)
Theorem sleep_us_never_undershoots env fuel us w :
  monotone env -> 0 <= us ->
  (forall w', sleep_us env fuel us w = Some (tt, w') ->
     exists j, (reads w < j)%nat /\ w' = at_reads w (S j) /\
               us <= clock env j - clock env (reads w) /\
               forall l, (reads w < l < j)%nat ->
                         Int.to_int (clock env l - clock env (reads w)) < us) /\
  (forall D, steady D env -> us + D < 2147483648 -> us <= Z.of_nat fuel ->
     exists w', sleep_us env fuel us w = Some (tt, w')).
Proof.
  intros Hm Hus. split.
  - intros w' Hrun. apply sleep_us_sound in Hrun.
    destruct Hrun as (j & Hj & Hw & Hge & Hbefore).
    exists j. repeat split; try assumption.
    pose proof (monotone_le env Hm (reads w) j ltac:(lia)).
    pose proof (to_int_le (clock env j - clock env (reads w)) ltac:(lia)). lia.
  - intros D Hs HD Hf.
    destruct (sleep_us_total env D fuel us w Hs Hus HD Hf) as (r & Hrun & _).
    eexists. exact Hrun.
Qed.

Lemma sleep_us_never_undershoots_witness :
  (exists j, (reads boot < j)%nat /\ at_reads boot 6 = at_reads boot (S j) /\
             5 <= clock no_sensor j - clock no_sensor (reads boot) /\
             forall l, (reads boot < l < j)%nat ->
                       Int.to_int (clock no_sensor l - clock no_sensor (reads boot)) < 5) /\
  (exists w', sleep_us no_sensor 10 5 boot = Some (tt, w')).
Proof.
  assert (Hm : monotone no_sensor) by (intros k; cbn [clock no_sensor]; lia).
  destruct (sleep_us_never_undershoots no_sensor 10 5 boot Hm ltac:(lia)) as [Hsafe Hlive].
  split.
  - apply (Hsafe (at_reads boot 6)). reflexivity.
  - apply (Hlive 1).
    + exact no_sensor_steady.
    + lia.
    + cbn. lia.
Defined.

(** C6. A write slot, for either value of the bit: the line is driven
    low, stays low for at least 2 microseconds for a 1 and at least 60
    for a 0, is driven high, and the slot returns at least 60
    microseconds later for a 1 and at least 2 for a 0; so from the
    falling edge to the end the slot lasts 60 microseconds or more (62 in
    fact).  This holds on every clock that does not run backwards; on a
    clock that advances at each reading the slot does return, and the
    two waits are no longer than 1 + 2 D and 59 + 2 D microseconds. *)
Theorem write_slot_timing env fuel data i w :
  monotone env ->
  (forall w', write_slot env fuel data i w = Some (tt, w') ->
     exists t1,
       trace w' = Drive (pin w) true t1 :: Drive (pin w) false (now env w) :: trace w /\
       (if bit_of data i
        then 2 <= t1 - now env w /\ 60 <= now env w' - t1
        else 60 <= t1 - now env w /\ 2 <= now env w' - t1) /\
       60 <= now env w' - now env w) /\
  (forall D, steady D env -> 750 + D < 2147483648 -> 750 <= Z.of_nat fuel ->
     exists w' t1,
       write_slot env fuel data i w = Some (tt, w') /\
       trace w' = Drive (pin w) true t1 :: Drive (pin w) false (now env w) :: trace w /\
       (if bit_of data i
        then short_wait D (t1 - now env w) /\ long_wait D (now env w' - t1)
        else long_wait D (t1 - now env w) /\ short_wait D (now env w' - t1))).
Proof.
  intros Hm. split.
  - intros w' Hrun.
    destruct (write_slot_partial env fuel data i w Hm tt w' Hrun)
      as (t1 & (_ & Ht & _) & Hwait).
    exists t1. split; [exact Ht|]. split; [exact Hwait|].
    destruct (bit_of data i); lia.
  - intros D Hs HD Hf.
    destruct (write_slot_spec env fuel D Hs HD Hf data i w)
      as ([] & w' & Hrun & t1 & (_ & Ht & _) & Hwait).
    exists w', t1. repeat split; assumption.
Qed.

Lemma write_slot_timing_witness :
  let w' := {| pin := P8; reads := 64; trace := [Drive P8 true 3; Drive P8 false 0] |} in
  (exists t1,
     trace w' = Drive (pin boot) true t1 :: Drive (pin boot) false (now no_sensor boot)
                  :: trace boot /\
     (if bit_of 0xCC 2
      then 2 <= t1 - now no_sensor boot /\ 60 <= now no_sensor w' - t1
      else 60 <= t1 - now no_sensor boot /\ 2 <= now no_sensor w' - t1) /\
     60 <= now no_sensor w' - now no_sensor boot) /\
  (exists w'' t1,
     write_slot no_sensor 750 0xCC 2 boot = Some (tt, w'') /\
     trace w'' = Drive (pin boot) true t1 :: Drive (pin boot) false (now no_sensor boot)
                   :: trace boot /\
     (if bit_of 0xCC 2
      then short_wait 1 (t1 - now no_sensor boot) /\ long_wait 1 (now no_sensor w'' - t1)
      else long_wait 1 (t1 - now no_sensor boot) /\ short_wait 1 (now no_sensor w'' - t1))).
Proof.
  intros w'.
  assert (Hm : monotone no_sensor) by (intros k; cbn [clock no_sensor]; lia).
  destruct (write_slot_timing no_sensor 750 0xCC 2 boot Hm) as [Hsafe Hlive].
  split.
  - apply (Hsafe w'). vm_compute. reflexivity.
  - apply (Hlive 1).
    + exact no_sensor_steady.
    + lia.
    + cbn. lia.
Defined.

(** C7. A read slot: the line is driven low for at least 2 microseconds,
    driven high, and sampled at least 5 microseconds later; the bit
    returned is 1 when the sample is high and 0 when it is low; the slot
    returns at least 60 microseconds after the sample.  This holds on
    every clock that does not run backwards.  On a clock that advances
    by 1 to 2 microseconds at each reading the slot does return, and the
    sample is taken within 15 microseconds of the falling edge. *)
Theorem read_slot_timing env fuel w :
  monotone env ->
  (forall bit w', ds18b20ReadBit env fuel w = Some (bit, w') ->
     exists t1 t2 v,
       trace w' = Sample (pin w) v t2 :: Drive (pin w) true t1
                    :: Drive (pin w) false (now env w) :: trace w /\
       v = line env (pin w) t2
             (Drive (pin w) true t1 :: Drive (pin w) false (now env w) :: trace w) /\
       bit = (if v then 1 else 0) /\
       2 <= t1 - now env w /\ 5 <= t2 - t1 /\ 60 <= now env w' - t2) /\
  (forall D, steady D env -> D <= 2 -> 750 <= Z.of_nat fuel ->
     exists bit w' t1 t2 v,
       ds18b20ReadBit env fuel w = Some (bit, w') /\
       trace w' = Sample (pin w) v t2 :: Drive (pin w) true t1
                    :: Drive (pin w) false (now env w) :: trace w /\
       t2 - now env w <= 15).
Proof.
  intros Hm. split.
  - intros bit w' Hrun.
    destruct (ds18b20ReadBit_partial env fuel w Hm bit w' Hrun)
      as (t1 & t2 & v & (_ & Ht & _) & Hv & Hbit & Hwait).
    exists t1, t2, v. repeat split; try assumption; lia.
  - intros D Hs HD Hf.
    destruct (ds18b20ReadBit_spec env fuel D Hs ltac:(lia) Hf w)
      as (bit & w' & Hrun & t1 & t2 & v & (_ & Ht & _) & _ & _ & Hlow & Hhigh & _).
    exists bit, w', t1, t2, v. unfold short_wait in Hlow.
    repeat split; try assumption. lia.
Qed.

Lemma read_slot_timing_witness :
  let w' := {| pin := P8; reads := 70;
               trace := [Sample P8 true 9; Drive P8 true 3; Drive P8 false 0] |} in
  (exists t1 t2 v,
     trace w' = Sample (pin boot) v t2 :: Drive (pin boot) true t1
                  :: Drive (pin boot) false (now no_sensor boot) :: trace boot /\
     v = line no_sensor (pin boot) t2
           (Drive (pin boot) true t1 :: Drive (pin boot) false (now no_sensor boot)
              :: trace boot) /\
     1 = (if v then 1 else 0) /\
     2 <= t1 - now no_sensor boot /\ 5 <= t2 - t1 /\ 60 <= now no_sensor w' - t2) /\
  (exists bit w'' t1 t2 v,
     ds18b20ReadBit no_sensor 750 boot = Some (bit, w'') /\
     trace w'' = Sample (pin boot) v t2 :: Drive (pin boot) true t1
                   :: Drive (pin boot) false (now no_sensor boot) :: trace boot /\
     t2 - now no_sensor boot <= 15).
Proof.
  intros w'.
  assert (Hm : monotone no_sensor) by (intros k; cbn [clock no_sensor]; lia).
  destruct (read_slot_timing no_sensor 750 boot Hm) as [Hsafe Hlive].
  split.
  - apply (Hsafe 1 w'). vm_compute. reflexivity.
  - apply (Hlive 1).
    + exact no_sensor_steady.
    + lia.
    + cbn. lia.
Defined.

(** ** Presence, round trip, pin selection: the statements *)

(** The result of the check as a function of the levels read: it is
    [true] when a low level was read and the last level read is high. *)
Definition presence_of (obs : list bool) : bool :=
  existsb negb obs && last obs false.

Lemma existsb_negb_repeat_true k : existsb negb (repeat true k) = false.
Proof. induction k as [|k IH]; [reflexivity | exact IH]. Qed.

Lemma presence_outcome_of obs ok : presence_outcome obs ok -> ok = presence_of obs.
Proof.
  unfold presence_of.
  intros [[-> ->] | [[-> (j & Hj & ->)] | [-> (j & m & Hj & Hm & ->)]]].
  - rewrite existsb_negb_repeat_true. reflexivity.
  - change (repeat false 241) with (false :: repeat false 240).
    rewrite repeat_cons, app_assoc, last_last.
    symmetry. apply andb_false_r.
  - rewrite app_assoc, last_last, andb_true_r, existsb_app.
    symmetry. apply orb_true_iff. left. rewrite existsb_app. apply orb_true_iff. right. reflexivity.
Qed.

(** C4. For every behaviour of the line, [ds18b20Check] returns after at
    most 440 samples, taken at most 2 D microseconds apart.  The levels
    it read, in order, are 200 times high, and the result is [false]; or
    fewer than 200 times high and then 241 times low (the sample that
    ended the first loop and the 240 of the second), and the result is
    [false]; or fewer than 200 times high, then 1 to 240 times low, then
    high, and the result is [true].  The result is [true] exactly in the
    third case. *)
Theorem presence_check_bounded env fuel D w :
  steady D env -> 750 + D < 2147483648 -> 750 <= Z.of_nat fuel ->
  exists ok w' new,
    ds18b20Check env fuel w = Some (ok, w') /\
    trace w' = new ++ trace w /\ Forall is_sample new /\
    (faithful env (trace w) -> faithful env (trace w')) /\
    (length new <= 440)%nat /\
    now env w' <= now env w + 2 * D * Z.of_nat (length new) /\
    presence_outcome (observed new) ok /\
    (observed new = repeat true 200 -> ok = false) /\
    (forall j, (j < 200)%nat ->
               observed new = repeat true j ++ repeat false 241 -> ok = false) /\
    (ok = true <->
     exists j m, (j < 200)%nat /\ (m < 240)%nat /\
                 observed new = repeat true j ++ repeat false (S m) ++ [true]).
Proof.
  intros Hs HD Hf.
  destruct (ds18b20Check_spec env fuel D Hs HD Hf w)
    as (ok & w' & Hrun & new & (_ & Ht & _) & Hsm & Hfa & Hout & Hlen & Hnow).
  exists ok, w', new. repeat split; try assumption.
  - intros Hobs. rewrite (presence_outcome_of _ _ Hout).
    symmetry. apply (presence_outcome_of _ false). left. split; [reflexivity | exact Hobs].
  - intros j Hj Hobs. rewrite (presence_outcome_of _ _ Hout).
    symmetry. apply (presence_outcome_of _ false). right. left.
    split; [reflexivity|]. exists j. split; assumption.
  - intros Hok. destruct Hout as [[E _] | [[E _] | [_ H]]]; [congruence | congruence | exact H].
  - intros H. rewrite (presence_outcome_of _ _ Hout).
    symmetry. apply (presence_outcome_of _ true). right. right. split; [reflexivity | exact H].
Qed.

Lemma presence_check_bounded_witness :
  exists ok w' new,
    ds18b20Check no_sensor 750 boot = Some (ok, w') /\
    trace w' = new ++ trace boot /\ Forall is_sample new /\
    (faithful no_sensor (trace boot) -> faithful no_sensor (trace w')) /\
    (length new <= 440)%nat /\
    now no_sensor w' <= now no_sensor boot + 2 * 1 * Z.of_nat (length new) /\
    presence_outcome (observed new) ok /\
    (observed new = repeat true 200 -> ok = false) /\
    (forall j, (j < 200)%nat ->
               observed new = repeat true j ++ repeat false 241 -> ok = false) /\
    (ok = true <->
     exists j m, (j < 200)%nat /\ (m < 240)%nat /\
                 observed new = repeat true j ++ repeat false (S m) ++ [true]).
Proof.
  refine (presence_check_bounded no_sensor 750 1 boot _ _ _).
  - exact no_sensor_steady.
  - lia.
  - cbn. lia.
Defined.

(** C5. For every byte [v]: on the loopback line, with a clock that
    advances by 1 to 6 microseconds at each reading and a device that has
    nothing left to play back, [ds18b20WiteByte v] followed by
    [ds18b20ReadByte] returns [v]. *)
Theorem byte_round_trip env fuel D v w :
  steady D env -> D <= 6 -> 750 <= Z.of_nat fuel ->
  (forall p t h, line env p t h = loopback p t h) ->
  Int.is_uint8 v -> drained (trace w) ->
  exists w', (ds18b20WiteByte env fuel v ;; ds18b20ReadByte env fuel) w = Some (v, w').
Proof.
  intros Hs HD Hf Hline Hv Hdr.
  destruct (write_read_loopback env fuel D Hs HD Hf Hline v w Hv Hdr)
    as (r & w' & Hrun & -> & _).
  exists w'. exact Hrun.
Qed.

Lemma byte_round_trip_witness :
  exists w', (ds18b20WiteByte loopback_env 750 0xA5 ;; ds18b20ReadByte loopback_env 750) boot
             = Some (0xA5, w').
Proof.
  refine (byte_round_trip loopback_env 750 1 0xA5 boot _ _ _ _ _ _).
  - exact loopback_env_steady.
  - lia.
  - cbn. lia.
  - reflexivity.
  - unfold Int.is_uint8. lia.
  - reflexivity.
Defined.

(** The pins by number. *)
Definition all_pins : list PinName :=
  [P0; P1; P2; P3; P4; P5; P6; P7; P8; P9; P10; P11; P12; P13; P14; P15; P16].

Lemma select_pin_default p : ~ 0 <= p <= 16 -> select_pin p = P8.
Proof.
  intros H. destruct p as [|p|p]; [lia| |reflexivity].
  do 5 (try (destruct p as [p|p|]; try reflexivity; try lia)).
Qed.

Lemma select_pin_mapped p : 0 <= p <= 16 -> select_pin p = nth (Z.to_nat p) all_pins P8.
Proof.
  intros H. destruct p as [|p|p]; [reflexivity| |lia].
  do 5 (try (destruct p as [p|p|]; try reflexivity; try lia)).
Qed.

(** ** The presence check is not acted on *)

(** The bits of the write slots of [new] (latest first), in the order
    they were sent: a slot released within 15 microseconds carries a 1. *)
Fixpoint slot_bits (new : list Event) : list bool :=
  match new with
  | Drive _ true t1 :: Drive _ false t0 :: rest => slot_bits rest ++ [t1 - t0 <? 15]
  | _ => []
  end.

Definition is_sampleb (e : Event) : bool :=
  match e with Sample _ _ _ => true | Drive _ _ _ => false end.

(** C3 (the code departs from it).  With no sensor on the line the
    presence check after the reset returns [false]; [ds18b20Start] still
    sends the sixteen write slots of CCh and 44h after that check, and
    [ds18b20GetTemperture] goes on to the second transaction, takes the
    sixteen samples of the two scratchpad bytes after two failed checks
    (2 x 200 + 16 samples in all) and decodes FFh, FFh as 31.875. *)
Theorem presence_result_is_dropped :
  exists w1 w2 t w3,
    (ds18b20Rest no_sensor 750 ;; ds18b20Check no_sensor 750) boot = Some (false, w1) /\
    ds18b20Start no_sensor 750 boot = Some (tt, w2) /\
    skipn 32 (trace w2) = trace w1 /\
    slot_bits (firstn 32 (trace w2)) = bits_upto 0xCC 8 ++ bits_upto 0x44 8 /\
    ds18b20GetTemperture no_sensor 750 boot = Some (t, w3) /\
    length (filter is_sampleb (trace w3)) = 416%nat /\
    t = decode 0xFF 0xFF /\ F.has_value t 31.875.
Proof.
  do 4 eexists.
  split; [vm_compute; reflexivity|].
  split; [vm_compute; reflexivity|].
  split; [vm_compute; reflexivity|].
  split; [vm_compute; reflexivity|].
  split; [vm_compute; reflexivity|].
  split; [vm_compute; reflexivity|].
  split; vm_compute; reflexivity.
Qed.

(** * Further properties of the driver *)

(** ** The delay at its edges *)

(** A board whose clock has stopped. *)
Definition frozen : Env := {| clock := fun _ => 0; line := fun _ _ _ => true |}.

Lemma sleep_us_loop_stopped env us c :
  0 < us ->
  forall n w,
    (forall k, (reads w <= k)%nat -> clock env k = c) ->
    sleep_us_loop env n us (Int.to_int c) (Int.to_int c) w = None.
Proof.
  intros Hus. induction n as [|n IH]; intros w Hc; simpl;
    rewrite to_int_sub, Z.sub_diag; change (Int.to_int 0) with 0;
    destruct (Z.ltb_spec 0 us) as [_|]; try lia.
  - reflexivity.
  - unfold bind, system_timer_current_time_us, now.
    rewrite (Hc (reads w)) by lia. apply IH.
    intros k Hk. apply Hc. simpl in Hk. lia.
Qed.

(** X1. [sleep_us us] with [us > 0] on a clock that shows the same value
    at every reading from now on: whatever the number of rounds allowed
    to the loop, it has not returned; the C++ loop never exits. *)
Theorem sleep_us_stopped_clock env us w :
  0 < us ->
  (forall k, (reads w <= k)%nat -> clock env k = clock env (reads w)) ->
  forall fuel, sleep_us env fuel us w = None.
Proof.
  intros Hus Hc fuel. unfold sleep_us, bind, system_timer_current_time_us, now.
  cbn [reads pin trace]. rewrite (Hc (S (reads w))) by lia.
  apply sleep_us_loop_stopped; [exact Hus|].
  intros k Hk. apply Hc. simpl in Hk. lia.
Qed.

Lemma sleep_us_stopped_clock_witness :
  sleep_us frozen 1000 5 boot = None.
Proof.
  apply (sleep_us_stopped_clock frozen 5 boot).
  - lia.
  - intros k Hk. reflexivity.
Defined.

(** X2. [sleep_us us] with [us <= 0]: when the second reading of the
    clock is not before the first (and less than 2^31 microseconds after
    it), the condition of the loop is false at once, and the call returns
    after exactly two readings of the clock, whatever the budget. *)
Theorem sleep_us_nonpositive env fuel us w :
  us <= 0 ->
  0 <= clock env (S (reads w)) - clock env (reads w) < 2147483648 ->
  sleep_us env fuel us w = Some (tt, at_reads w (S (S (reads w)))).
Proof.
  intros Hus Hc. unfold sleep_us, bind, system_timer_current_time_us, now.
  cbn [reads pin trace].
  destruct fuel; simpl; rewrite to_int_sub, to_int_small by (unfold Int.is_int; lia);
    destruct (Z.ltb_spec (clock env (S (reads w)) - clock env (reads w)) us);
    try lia; reflexivity.
Qed.

Lemma sleep_us_nonpositive_witness :
  sleep_us no_sensor 0 0 boot = Some (tt, at_reads boot 2).
Proof.
  apply (sleep_us_nonpositive no_sensor 0 0 boot).
  - lia.
  - cbn. lia.
Defined.

(** ** The reset pulse *)

Lemma ds18b20Rest_partial env fuel w :
  monotone env ->
  partial (ds18b20Rest env fuel) w
    (fun _ w' => exists t1,
         after w [Drive (pin w) true t1; Drive (pin w) false (now env w)] w' /\
         750 <= t1 - now env w /\ 15 <= now env w' - t1).
Proof.
  intros Hm. unfold ds18b20Rest.
  step_with setDigitalValue_partial. intros [] w1 H1.
  step_with sleep_us_partial. intros [] w2 H2.
  step_with setDigitalValue_partial. intros [] w3 H3.
  step_with sleep_us_partial. intros [] w4 H4.
  exists (now env w2). open_after. close_after. solve_after.
Qed.

Lemma ds18b20Rest_full env fuel D w :
  steady D env -> 750 + D < 2147483648 -> 750 <= Z.of_nat fuel ->
  total (ds18b20Rest env fuel) w
    (fun _ w' => exists t1,
         after w [Drive (pin w) true t1; Drive (pin w) false (now env w)] w' /\
         750 <= t1 - now env w <= 749 + 2 * D /\
         15 <= now env w' - t1 <= 14 + 2 * D).
Proof.
  intros Hs HD Hf. unfold ds18b20Rest.
  pose proof (sleep_us_spec env fuel D Hs HD Hf) as sleep_ok.
  step_with setDigitalValue_total. intros [] w1 H1.
  step_with (sleep_ok 750); [lia|]. intros [] w2 H2.
  step_with setDigitalValue_total. intros [] w3 H3.
  step_with (sleep_ok 15); [lia|]. intros [] w4 H4.
  exists (now env w2). open_after. close_after. solve_after.
Qed.

(** X3. [ds18b20Rest]: the line is driven low, held low for at least 750
    microseconds (the reset pulse: above the 480 microseconds of the
    comment in the source), driven high, and the call returns at least
    15 microseconds later; it samples nothing.  This holds on every clock
    that does not run backwards; on a clock that advances at each reading
    the call returns, the pulse being at most 749 + 2 D microseconds long
    and the wait after it at most 14 + 2 D. *)
Theorem reset_pulse_timing env fuel w :
  monotone env ->
  (forall w', ds18b20Rest env fuel w = Some (tt, w') ->
     exists t1,
       trace w' = Drive (pin w) true t1 :: Drive (pin w) false (now env w) :: trace w /\
       750 <= t1 - now env w /\ 15 <= now env w' - t1) /\
  (forall D, steady D env -> 750 + D < 2147483648 -> 750 <= Z.of_nat fuel ->
     exists w' t1,
       ds18b20Rest env fuel w = Some (tt, w') /\
       trace w' = Drive (pin w) true t1 :: Drive (pin w) false (now env w) :: trace w /\
       750 <= t1 - now env w <= 749 + 2 * D /\
       15 <= now env w' - t1 <= 14 + 2 * D).
Proof.
  intros Hm. split.
  - intros w' Hrun.
    destruct (ds18b20Rest_partial env fuel w Hm tt w' Hrun) as (t1 & (_ & Ht & _) & Hlow & Hhigh).
    exists t1. repeat split; try assumption; lia.
  - intros D Hs HD Hf.
    destruct (ds18b20Rest_full env fuel D w Hs HD Hf)
      as ([] & w' & Hrun & t1 & (_ & Ht & _) & Hlow & Hhigh).
    exists w', t1. repeat split; try assumption; lia.
Qed.

Lemma reset_pulse_timing_witness :
  exists w' t1,
    ds18b20Rest no_sensor 750 boot = Some (tt, w') /\
    trace w' = Drive (pin boot) true t1 :: Drive (pin boot) false (now no_sensor boot)
                 :: trace boot /\
    750 <= t1 - now no_sensor boot <= 749 + 2 * 1 /\
    15 <= now no_sensor w' - t1 <= 14 + 2 * 1.
Proof.
  assert (Hm : monotone no_sensor) by (intros k; cbn [clock no_sensor]; lia).
  apply (proj2 (reset_pulse_timing no_sensor 750 boot Hm) 1).
  - exact no_sensor_steady.
  - lia.
  - cbn. lia.
Defined.

(** ** A byte on the wire *)

(** The byte whose bits are [bits], bit 0 first. *)
Fixpoint byte_of_bits (bits : list bool) : Z :=
  match bits with
  | [] => 0
  | b :: bits' => (if b then 1 else 0) + 2 * byte_of_bits bits'
  end.


Lemma wslots_slot_bits D p bits new :
  D <= 6 -> wslots D p bits new ->
  forall rest, slot_bits (new ++ rest) = slot_bits rest ++ bits.
Proof.
  intros HD Hw. induction Hw as [|bits b new t0 t1 Hw IH Hwait]; intros rest.
  - rewrite app_nil_r. reflexivity.
  - cbn [app slot_bits]. rewrite IH, <- app_assoc. do 3 f_equal.
    unfold short_wait, long_wait in Hwait.
    destruct b; [apply Z.ltb_lt | apply Z.ltb_ge]; lia.
Qed.

Lemma wslots_shape D p bits new :
  wslots D p bits new ->
  length new = (2 * length bits)%nat /\ Forall (fun e => is_sampleb e = false) new.
Proof.
  intros Hw. induction Hw as [|bits b new t0 t1 Hw [IHl IHf] Hwait].
  - split; [reflexivity | constructor].
  - split.
    + cbn [length]. rewrite IHl, length_app. cbn [length]. lia.
    + repeat constructor. exact IHf.
Qed.

Lemma ds18b20WiteByte_full env fuel D data w :
  steady D env -> 750 + D < 2147483648 -> 750 <= Z.of_nat fuel ->
  total (ds18b20WiteByte env fuel data) w
    (fun _ w' => exists new,
         after w new w' /\ wslots D (pin w) (bits_upto (Int.to_uint8 data) 8) new /\
         496 <= now env w' - now env w <= 480 + 32 * D).
Proof.
  intros Hs HD Hf. unfold ds18b20WiteByte. cbv zeta.
  generalize (Int.to_uint8 data). clear data. intros data.
  eapply total_weaken.
  - apply (for_loop_total
             (fun k (_ : unit) w' =>
                exists new, after w new w' /\ wslots D (pin w) (bits_upto data k) new /\
                            62 * Z.of_nat k <= now env w' - now env w
                              <= (60 + 4 * D) * Z.of_nat k)).
    + exists []. split; [apply after_refl|]. split; [constructor | lia].
    + intros k [] w1 Hk (new & Hnew & Hslots & Htime).
      change (0 + Z.of_nat k) with (Z.of_nat k).
      step_with (write_slot_spec env fuel D Hs HD Hf).
      intros [] w2 (t1 & Hstep & Hwait).
      exists ([Drive (pin w1) true t1; Drive (pin w1) false (now env w1)] ++ new).
      split; [eapply after_trans; eassumption|].
      destruct Hnew as (-> & _). cbn [app].
      rewrite bits_upto_S. split.
      * constructor; [exact Hslots|]. destruct (bit_of data (Z.of_nat k)); tauto.
      * unfold short_wait, long_wait in Hwait.
        destruct (bit_of data (Z.of_nat k)); lia.
  - cbv beta. intros [] w' (new & Hnew & Hslots & Htime).
    exists new. repeat split; try apply Hnew; try assumption; lia.
Qed.



(** ** A byte read from the line *)

(** [rslots env D p h0 lv new]: the events [new] (latest first), which
    follow the history [h0], are read slots on pin [p], one for each
    level of [lv] in order; each sample is what the line gave then. *)
Inductive rslots (env : Env) (D : Z) (p : PinName) (h0 : list Event) :
  list bool -> list Event -> Prop :=
| rslots_nil : rslots env D p h0 [] []
| rslots_snoc (lv : list bool) (v : bool) (new : list Event) (t0 t1 t2 : Z) :
    rslots env D p h0 lv new ->
    short_wait D (t1 - t0) -> 5 <= t2 - t1 <= 4 + 2 * D ->
    v = line env p t2 (Drive p true t1 :: Drive p false t0 :: new ++ h0) ->
    rslots env D p h0 (lv ++ [v])
      (Sample p v t2 :: Drive p true t1 :: Drive p false t0 :: new).

Lemma byte_of_bits_app lv (b : bool) :
  byte_of_bits (lv ++ [b])
  = byte_of_bits lv + (if b then 1 else 0) * 2 ^ Z.of_nat (length lv).
Proof.
  induction lv as [|a lv IH].
  - cbn. destruct b; reflexivity.
  - cbn [app byte_of_bits length]. rewrite IH, Nat2Z.inj_succ, Z.pow_succ_r by lia. ring.
Qed.

Lemma byte_of_bits_bound lv : 0 <= byte_of_bits lv < 2 ^ Z.of_nat (length lv).
Proof.
  induction lv as [|a lv IH].
  - cbn. lia.
  - cbn [byte_of_bits length]. rewrite Nat2Z.inj_succ, Z.pow_succ_r by lia.
    destruct a; lia.
Qed.

(** One round of the loop of [ds18b20ReadByte] puts the bit read at
    index [k], above the [k] bits already there. *)
Lemma accumulate_bit a (k : nat) (b : bool) :
  0 <= a < 2 ^ Z.of_nat k -> (k < 8)%nat ->
  Int.to_uint8 (Z.lor a (Z.shiftl (if b then 1 else 0) (Z.of_nat k)))
  = a + (if b then 1 else 0) * 2 ^ Z.of_nat k.
Proof.
  intros Ha Hk.
  assert (Hall : forallb (fun a => forallb (fun j => forallb (fun b : bool =>
            negb (a <? 2 ^ Z.of_nat j) ||
            (Int.to_uint8 (Z.lor a (Z.shiftl (if b then 1 else 0) (Z.of_nat j)))
             =? a + (if b then 1 else 0) * 2 ^ Z.of_nat j))
            [true; false]) (seq 0 8)) all_bytes = true)
    by (vm_compute; reflexivity).
  assert (Ha8 : Int.is_uint8 a).
  { unfold Int.is_uint8. split; [lia|].
    assert (2 ^ Z.of_nat k <= 2 ^ 8) by (apply Z.pow_le_mono_r; lia). lia. }
  rewrite forallb_forall in Hall. specialize (Hall a (all_bytes_spec a Ha8)).
  rewrite forallb_forall in Hall. specialize (Hall k ltac:(apply in_seq; lia)).
  rewrite forallb_forall in Hall.
  specialize (Hall b ltac:(destruct b; cbn; tauto)).
  apply orb_true_iff in Hall. destruct Hall as [Hall|Hall].
  - apply negb_true_iff, Z.ltb_ge in Hall. lia.
  - apply Z.eqb_eq, Hall.
Qed.

Lemma rslots_observed env D p h0 lv new :
  rslots env D p h0 lv new ->
  observed (filter is_sampleb new) = lv /\
  (faithful env h0 -> faithful env (new ++ h0)).
Proof.
  intros Hr. induction Hr as [|lv v new t0 t1 t2 Hr [IHo IHf] Hlow Hhigh Hv].
  - split; [reflexivity | tauto].
  - split.
    + cbn [filter is_sampleb]. unfold observed in *. cbn [map event_level rev].
      rewrite IHo. reflexivity.
    + intros Hf. cbn [app faithful]. split; [exact Hv | apply IHf, Hf].
Qed.

Lemma ds18b20ReadByte_full env fuel D w :
  steady D env -> 750 + D < 2147483648 -> 750 <= Z.of_nat fuel ->
  total (ds18b20ReadByte env fuel) w
    (fun data w' => exists new lv,
         after w new w' /\ rslots env D (pin w) (trace w) lv new /\
         length lv = 8%nat /\ data = byte_of_bits lv /\
         554 <= now env w' - now env w <= 521 + 66 * D).
Proof.
  intros Hs HD Hf. unfold ds18b20ReadByte.
  pose proof (sleep_us_spec env fuel D Hs HD Hf) as sleep_ok.
  apply total_bind.
  eapply total_weaken.
  - apply (for_loop_total
             (fun (k : nat) (acc : Z) w' =>
                exists new lv,
                  after w new w' /\ rslots env D (pin w) (trace w) lv new /\
                  length lv = k /\ acc = byte_of_bits lv /\
                  69 * Z.of_nat k <= now env w' - now env w <= (65 + 8 * D) * Z.of_nat k)).
    + exists [], []. split; [apply after_refl|]. repeat split; try constructor; lia.
    + intros k acc w1 Hk (new & lv & Hnew & Hr & Hlen & Hacc & Htime).
      change (0 + Z.of_nat k) with (Z.of_nat k). unfold read_step.
      step_with (ds18b20ReadBit_spec env fuel D Hs HD Hf).
      intros bit w2 (t1 & t2 & v & H2 & Hv & Hbit & Hlow & Hhigh & Hpad).
      step_with (sleep_ok 2); [lia|]. intros [] w3 (H3 & Hgap).
      apply total_ret.
      exists ([Sample (pin w1) v t2; Drive (pin w1) true t1;
               Drive (pin w1) false (now env w1)] ++ new), (lv ++ [v]).
      split; [pose proof (after_trans _ _ _ _ _ (after_trans _ _ _ _ _ Hnew H2) H3) as H;
              cbn [app] in H; exact H|].
      destruct Hnew as (P1 & T1 & _). rewrite P1, T1 in *. cbn [app].
      split; [constructor; assumption|].
      split; [rewrite length_app; cbn [length]; lia|].
      split.
      * subst acc bit. rewrite byte_of_bits_app, Hlen.
        apply accumulate_bit; [|exact Hk].
        rewrite <- Hlen. apply byte_of_bits_bound.
      * unfold short_wait, long_wait in *. lia.
  - cbv beta. intros acc w1 (new & lv & Hnew & Hr & Hlen & Hacc & Htime).
    step_with (sleep_ok 2); [lia|]. intros [] w2 (H2 & Hgap).
    apply total_ret. exists new, lv.
    split; [pose proof (after_trans _ _ _ _ _ Hnew H2) as H; cbn [app] in H; exact H|].
    repeat split; try assumption; lia.
Qed.

(** X5. [ds18b20ReadByte], whatever is on the line, on a clock that
    advances at each reading: it returns after 554 to 521 + 66 D
    microseconds, having sampled the line exactly eight times; the byte
    returned has the level of the first sample as bit 0, of the second
    as bit 1, and so on to bit 7; each sample recorded is what the line
    gave. *)
Theorem read_byte_from_samples env fuel D w :
  steady D env -> 750 + D < 2147483648 -> 750 <= Z.of_nat fuel ->
  exists data w' new,
    ds18b20ReadByte env fuel w = Some (data, w') /\
    trace w' = new ++ trace w /\
    length (filter is_sampleb new) = 8%nat /\
    data = byte_of_bits (observed (filter is_sampleb new)) /\
    (faithful env (trace w) -> faithful env (trace w')) /\
    554 <= now env w' - now env w <= 521 + 66 * D.
Proof.
  intros Hs HD Hf.
  destruct (ds18b20ReadByte_full env fuel D w Hs HD Hf)
    as (data & w' & Hrun & new & lv & (_ & Ht & _) & Hr & Hlen & Hdata & Htime).
  destruct (rslots_observed _ _ _ _ _ _ Hr) as [Hobs Hfaith].
  exists data, w', new. split; [exact Hrun|]. split; [exact Ht|].
  split.
  - rewrite <- Hlen, <- Hobs. unfold observed. rewrite length_rev, length_map. reflexivity.
  - rewrite Hobs, Ht. split; [exact Hdata|]. split; [exact Hfaith | exact Htime].
Qed.

Lemma read_byte_from_samples_witness :
  exists data w' new,
    ds18b20ReadByte no_sensor 750 boot = Some (data, w') /\
    trace w' = new ++ trace boot /\
    length (filter is_sampleb new) = 8%nat /\
    data = byte_of_bits (observed (filter is_sampleb new)) /\
    (faithful no_sensor (trace boot) -> faithful no_sensor (trace w')) /\
    554 <= now no_sensor w' - now no_sensor boot <= 521 + 66 * 1.
Proof.
  apply (read_byte_from_samples no_sensor 750 1 boot).
  - exact no_sensor_steady.
  - lia.
  - cbn. lia.
Defined.

(** ** The whole reading: what goes on the bus and how long it takes *)

(** The two events of a reset pulse on pin [p]. *)
Definition reset_events (p : PinName) (new : list Event) : Prop :=
  exists t0 t1, new = [Drive p true t1; Drive p false t0] /\ 750 <= t1 - t0.

Definition is_driveb (e : Event) : bool := negb (is_sampleb e).

Lemma after_now D env w new w' :
  steady D env -> after w new w' -> now env w <= now env w'.
Proof.
  intros Hs (_ & _ & Hr & _). unfold now.
  apply (monotone_le env (steady_monotone D env Hs)). exact Hr.
Qed.

(** The events of a presence check: samples only, whose levels are one
    of the three outcomes of [ds18b20Check]. *)
Definition polled (chk : list Event) : Prop :=
  Forall is_sample chk /\ exists ok, presence_outcome (observed chk) ok.

Lemma ds18b20Check_elapsed env fuel D w :
  steady D env -> 750 + D < 2147483648 -> 750 <= Z.of_nat fuel ->
  total (ds18b20Check env fuel) w
    (fun _ w' => exists new,
         after w new w' /\ polled new /\
         0 <= now env w' - now env w <= 880 * D).
Proof.
  intros Hs HD Hf.
  step_with (ds18b20Check_spec env fuel D Hs HD Hf).
  intros ok w' (new & Hnew & Hsm & _ & Hout & Hlen & Hnow).
  exists new. split; [exact Hnew|].
  split; [split; [exact Hsm | exists ok; exact Hout]|].
  pose proof (after_now D env w new w' Hs Hnew).
  pose proof (Hs O). nia.
Qed.

Section WholeReading.

Variable env : Env.
Variable fuel : nat.
Variable D : Z.
Hypothesis steady_clock : steady D env.
Hypothesis step_small : 750 + D < 2147483648.
Hypothesis fuel_enough : 750 <= Z.of_nat fuel.

Let sleep_ok := sleep_us_spec env fuel D steady_clock step_small fuel_enough.
Let rest_ok := ds18b20Rest_full env fuel D.
Let check_ok := ds18b20Check_elapsed env fuel D.
Let write_ok := ds18b20WiteByte_full env fuel D.
Let read_ok := ds18b20ReadByte_full env fuel D.

Lemma ds18b20Start_full w :
  total (ds18b20Start env fuel) w
    (fun _ w' => exists rst chk c1 c2,
         after w (c2 ++ c1 ++ chk ++ rst) w' /\
         reset_events (pin w) rst /\ polled chk /\
         wslots D (pin w) (bits_upto 0xCC 8) c1 /\
         wslots D (pin w) (bits_upto 0x44 8) c2 /\
         1759 <= now env w' - now env w <= 1724 + 950 * D).
Proof.
  unfold ds18b20Start.
  step_with rest_ok. intros [] w1 (t1 & H1 & Hlow & Hhigh).
  step_with check_ok. intros ok w2 (chk & H2 & Hsm & Hchk).
  step_with (sleep_ok 2); [lia|]. intros [] w3 (H3 & Hgap).
  step_with write_ok. intros [] w4 (c1 & H4 & Hc1 & Ht1).
  step_with write_ok. intros [] w5 (c2 & H5 & Hc2 & Ht2).
  assert (P1 : pin w1 = pin w) by apply H1.
  assert (P2 : pin w2 = pin w) by (rewrite <- P1; apply H2).
  assert (P3 : pin w3 = pin w) by (rewrite <- P2; apply H3).
  assert (P4 : pin w4 = pin w) by (rewrite <- P3; apply H4).
  rewrite P3 in Hc1. rewrite P4 in Hc2.
  exists [Drive (pin w) true t1; Drive (pin w) false (now env w)], chk, c1, c2.
  split.
  { pose proof (after_trans _ _ _ _ _ (after_trans _ _ _ _ _
      (after_trans _ _ _ _ _ (after_trans _ _ _ _ _ H1 H2) H3) H4) H5) as H.
    cbn [app] in H. exact H. }
  split; [exists (now env w), t1; split; [reflexivity | lia]|].
  split; [exact Hsm|]. split; [exact Hc1|]. split; [exact Hc2 | lia].
Qed.

(** The ten steps of [ds18b20GetTemperture] and what each leaves on the
    bus: two transactions, then the read slots of the byte [TL] and, after
    them, those of the byte [TH]. *)
Lemma ds18b20GetTemperture_full w :
  total (ds18b20GetTemperture env fuel) w
    (fun t w' => exists rst1 chk1 c1 c2 rst2 chk2 c3 c4 rL rH lvL lvH hL hH,
         after w (rH ++ rL ++ c4 ++ c3 ++ chk2 ++ rst2
                  ++ c2 ++ c1 ++ chk1 ++ rst1) w' /\
         (reset_events (pin w) rst1 /\ polled chk1 /\
          wslots D (pin w) (bits_upto 0xCC 8) c1 /\
          wslots D (pin w) (bits_upto 0x44 8) c2) /\
         (reset_events (pin w) rst2 /\ polled chk2 /\
          wslots D (pin w) (bits_upto 0xCC 8) c3 /\
          wslots D (pin w) (bits_upto 0xBE 8) c4) /\
         (rslots env D (pin w) hL lvL rL /\ length lvL = 8%nat /\
          rslots env D (pin w) hH lvH rH /\ length lvH = 8%nat) /\
         t = decode (byte_of_bits lvH) (byte_of_bits lvL) /\
         4826 <= now env w' - now env w <= 4688 + 2036 * D /\
         hL = (c4 ++ c3 ++ chk2 ++ rst2 ++ c2 ++ c1 ++ chk1 ++ rst1) ++ trace w /\
         hH = (rL ++ c4 ++ c3 ++ chk2 ++ rst2 ++ c2 ++ c1 ++ chk1 ++ rst1) ++ trace w).
Proof.
  unfold ds18b20GetTemperture.
  step_with ds18b20Start_full.
  intros [] w1 (rst1 & chk1 & c1 & c2 & H1 & Hr1 & Hs1 & Hc1 & Hc2 & T1).
  step_with (sleep_ok 100); [lia|]. intros [] w2 (H2 & T2).
  step_with rest_ok. intros [] w3 (t3 & H3 & Hlow & Hhigh).
  step_with check_ok. intros ok w4 (chk2 & H4 & Hs2 & T4).
  step_with (sleep_ok 2); [lia|]. intros [] w5 (H5 & T5).
  step_with write_ok. intros [] w6 (c3 & H6 & Hc3 & T6).
  step_with write_ok. intros [] w7 (c4 & H7 & Hc4 & T7).
  step_with read_ok. intros TL w8 (rL & lvL & H8 & HrL & HlL & HTL & T8).
  step_with (sleep_ok 100); [lia|]. intros [] w9 (H9 & T9).
  step_with read_ok. intros TH w10 (rH & lvH & H10 & HrH & HlH & HTH & T10).
  apply total_ret.
  assert (P1 : pin w1 = pin w) by apply H1.
  assert (P2 : pin w2 = pin w) by (rewrite <- P1; apply H2).
  assert (P3 : pin w3 = pin w) by (rewrite <- P2; apply H3).
  assert (P4 : pin w4 = pin w) by (rewrite <- P3; apply H4).
  assert (P5 : pin w5 = pin w) by (rewrite <- P4; apply H5).
  assert (P6 : pin w6 = pin w) by (rewrite <- P5; apply H6).
  assert (P7 : pin w7 = pin w) by (rewrite <- P6; apply H7).
  assert (P8' : pin w8 = pin w) by (rewrite <- P7; apply H8).
  assert (P9 : pin w9 = pin w) by (rewrite <- P8'; apply H9).
  rewrite P5 in Hc3. rewrite P6 in Hc4. rewrite P7 in HrL. rewrite P9 in HrH.
  exists rst1, chk1, c1, c2,
    [Drive (pin w) true t3; Drive (pin w) false (now env w2)], chk2, c3, c4,
    rL, rH, lvL, lvH, (trace w7), (trace w9).
  split.
  { pose proof (after_trans _ _ _ _ _ (after_trans _ _ _ _ _ (after_trans _ _ _ _ _
      (after_trans _ _ _ _ _ (after_trans _ _ _ _ _ (after_trans _ _ _ _ _
      (after_trans _ _ _ _ _ (after_trans _ _ _ _ _ (after_trans _ _ _ _ _
         H1 H2) H3) H4) H5) H6) H7) H8) H9) H10) as H.
    rewrite P2 in H. cbn [app] in H. exact H. }
  split; [split; [exact Hr1|]; split; [exact Hs1|]; split; assumption|].
  split; [split; [exists (now env w2), t3; split; [reflexivity | lia]|];
          split; [exact Hs2|]; split; assumption|].
  split; [repeat split; assumption|].
  split; [subst TH TL; reflexivity|]. split; [lia|].
  split.
  - pose proof (after_trans _ _ _ _ _ (after_trans _ _ _ _ _ (after_trans _ _ _ _ _
      (after_trans _ _ _ _ _ (after_trans _ _ _ _ _ (after_trans _ _ _ _ _
         H1 H2) H3) H4) H5) H6) H7) as (_ & T & _).
    rewrite P2 in T. cbn [app] in T. exact T.
  - pose proof (after_trans _ _ _ _ _ (after_trans _ _ _ _ _ (after_trans _ _ _ _ _
      (after_trans _ _ _ _ _ (after_trans _ _ _ _ _ (after_trans _ _ _ _ _
      (after_trans _ _ _ _ _ (after_trans _ _ _ _ _
         H1 H2) H3) H4) H5) H6) H7) H8) H9) as (_ & T & _).
    rewrite P2 in T. cbn [app] in T. exact T.
Qed.

End WholeReading.

Lemma pulses_of_samples chk rest :
  Forall is_sample chk -> filter is_driveb chk ++ rest = rest.
Proof.
  intros H. induction H as [|e chk He _ IH]; [reflexivity|].
  destruct e; [destruct He | exact IH].
Qed.

Lemma pulses_of_wslots D p bits new rest :
  D <= 6 -> wslots D p bits new ->
  slot_bits (filter is_driveb new ++ rest) = slot_bits rest ++ bits.
Proof.
  intros HD Hw.
  replace (filter is_driveb new) with new; [apply (wslots_slot_bits D p); assumption|].
  clear HD. induction Hw as [|bits b new t0 t1 Hw IH Hwait]; [reflexivity|].
  cbn [filter is_driveb is_sampleb negb]. rewrite <- IH. reflexivity.
Qed.

Lemma pulses_of_rslots env D p h0 lv new rest :
  D <= 6 -> rslots env D p h0 lv new ->
  slot_bits (filter is_driveb new ++ rest) = slot_bits rest ++ repeat true (length lv).
Proof.
  intros HD Hr. induction Hr as [|lv v new t0 t1 t2 Hr IH Hlow Hhigh Hv].
  - rewrite app_nil_r. reflexivity.
  - cbn [filter is_driveb is_sampleb negb app slot_bits].
    rewrite IH, <- app_assoc, length_app, repeat_app. cbn [length repeat].
    do 3 f_equal. unfold short_wait in Hlow. apply Z.ltb_lt. lia.
Qed.

Lemma pulses_of_reset p rst rest :
  reset_events p rst ->
  slot_bits (filter is_driveb rst ++ rest) = slot_bits rest ++ [false].
Proof.
  intros (t0 & t1 & -> & Hlow).
  cbn [filter is_driveb is_sampleb negb app slot_bits].
  do 2 f_equal. apply Z.ltb_ge. lia.
Qed.

Lemma drives_of_samples chk : Forall is_sample chk -> filter is_driveb chk = [].
Proof.
  intros H. rewrite <- (app_nil_r (filter is_driveb chk)).
  apply pulses_of_samples, H.
Qed.

Lemma drives_of_wslots D p bits new :
  wslots D p bits new -> filter is_driveb new = new.
Proof.
  intros Hw. induction Hw as [|bits b new t0 t1 Hw IH Hwait]; [reflexivity|].
  cbn [filter is_driveb is_sampleb negb]. rewrite IH. reflexivity.
Qed.

Lemma drives_of_reset p rst :
  reset_events p rst -> filter is_driveb rst = rst /\ length rst = 2%nat.
Proof. intros (t0 & t1 & -> & _). split; reflexivity. Qed.

Lemma drives_of_rslots env D p h0 lv new :
  rslots env D p h0 lv new ->
  length (filter is_driveb new) = (2 * length lv)%nat.
Proof.
  intros Hr. induction Hr as [|lv v new t0 t1 t2 Hr IH Hlow Hhigh Hv]; [reflexivity|].
  cbn [filter is_driveb is_sampleb negb length]. rewrite IH, length_app. cbn [length]. lia.
Qed.

Lemma wslots_byte_length D p data new :
  wslots D p (bits_upto data 8) new -> length new = 16%nat.
Proof.
  intros Hw. rewrite (proj1 (wslots_shape _ _ _ _ Hw)).
  unfold bits_upto. rewrite length_map, length_seq. reflexivity.
Qed.

(** X6. What [ds18b20GetTemperture] puts on the bus, whatever the line
    answers (clock of steps 1 to 6 microseconds).  The events in which
    it drives the line are exactly one hundred, all on the bound pin,
    and they are, in order: a reset pulse (the line low for at least 750
    microseconds); sixteen write slots, which read as a receiver reads
    them (released within 15 microseconds: 1) spell the bytes CCh and
    44h, each bit 0 first; a second reset pulse of at least 750
    microseconds; sixteen write slots that spell CCh and BEh; and the
    sixteen short pulses that open the read slots. *)
Theorem reading_on_the_wire env fuel D w :
  steady D env -> D <= 6 -> 750 <= Z.of_nat fuel ->
  exists t w' new rst1 cmd1 rst2 cmd2 slots,
    ds18b20GetTemperture env fuel w = Some (t, w') /\
    trace w' = new ++ trace w /\
    Forall (fun e => event_pin e = pin w) new /\
    filter is_driveb new = slots ++ cmd2 ++ rst2 ++ cmd1 ++ rst1 /\
    length (filter is_driveb new) = 100%nat /\
    reset_events (pin w) rst1 /\
    (length cmd1 = 32%nat /\
     slot_bits cmd1 = bits_upto 0xCC 8 ++ bits_upto 0x44 8) /\
    reset_events (pin w) rst2 /\
    (length cmd2 = 32%nat /\
     slot_bits cmd2 = bits_upto 0xCC 8 ++ bits_upto 0xBE 8) /\
    (length slots = 32%nat /\ slot_bits slots = repeat true 16) /\
    slot_bits (filter is_driveb new)
    = [false] ++ bits_upto 0xCC 8 ++ bits_upto 0x44 8
      ++ [false] ++ bits_upto 0xCC 8 ++ bits_upto 0xBE 8
      ++ repeat true 16.
Proof.
  intros Hs HD Hf.
  destruct (ds18b20GetTemperture_full env fuel D Hs ltac:(lia) Hf w)
    as (t & w' & Hrun & rst1 & chk1 & c1 & c2 & rst2 & chk2 & c3 & c4
        & rL & rH & lvL & lvH & hL & hH & (_ & Ht & _ & Hon)
        & (Hr1 & (Hs1 & _) & Hc1 & Hc2) & (Hr2 & (Hs2 & _) & Hc3 & Hc4)
        & (HrL & HlL & HrH & HlH) & _).
  assert (Hdrv : filter is_driveb
                   (rH ++ rL ++ c4 ++ c3 ++ chk2 ++ rst2 ++ c2 ++ c1 ++ chk1 ++ rst1)
                 = (filter is_driveb rH ++ filter is_driveb rL)
                     ++ (c4 ++ c3) ++ rst2 ++ (c2 ++ c1) ++ rst1).
  { rewrite !filter_app.
    rewrite (drives_of_samples _ Hs1), (drives_of_samples _ Hs2).
    rewrite (drives_of_wslots _ _ _ _ Hc1), (drives_of_wslots _ _ _ _ Hc2).
    rewrite (drives_of_wslots _ _ _ _ Hc3), (drives_of_wslots _ _ _ _ Hc4).
    rewrite (proj1 (drives_of_reset _ _ Hr1)), (proj1 (drives_of_reset _ _ Hr2)).
    cbn [app]. rewrite <- !app_assoc. reflexivity. }
  pose proof (wslots_byte_length _ _ _ _ Hc1) as L1.
  pose proof (wslots_byte_length _ _ _ _ Hc2) as L2.
  pose proof (wslots_byte_length _ _ _ _ Hc3) as L3.
  pose proof (wslots_byte_length _ _ _ _ Hc4) as L4.
  pose proof (drives_of_rslots _ _ _ _ _ _ HrL) as LL.
  pose proof (drives_of_rslots _ _ _ _ _ _ HrH) as LH.
  pose proof (proj2 (drives_of_reset _ _ Hr1)) as Lr1.
  pose proof (proj2 (drives_of_reset _ _ Hr2)) as Lr2.
  eexists t, w', _, rst1, (c2 ++ c1), rst2, (c4 ++ c3),
    (filter is_driveb rH ++ filter is_driveb rL).
  split; [exact Hrun|]. split; [exact Ht|]. split; [exact Hon|].
  split; [exact Hdrv|].
  split; [rewrite Hdrv, !length_app; lia|].
  split; [exact Hr1|].
  split.
  { split; [rewrite length_app; lia|].
    rewrite (wslots_slot_bits D _ _ _ HD Hc2 c1).
    rewrite <- (app_nil_r c1), (wslots_slot_bits D _ _ _ HD Hc1 []). reflexivity. }
  split; [exact Hr2|].
  split.
  { split; [rewrite length_app; lia|].
    rewrite (wslots_slot_bits D _ _ _ HD Hc4 c3).
    rewrite <- (app_nil_r c3), (wslots_slot_bits D _ _ _ HD Hc3 []). reflexivity. }
  split.
  { split; [rewrite length_app; lia|].
    rewrite (pulses_of_rslots _ _ _ _ _ _ _ HD HrH).
    rewrite <- (app_nil_r (filter is_driveb rL)), (pulses_of_rslots _ _ _ _ _ _ _ HD HrL).
    rewrite HlL, HlH. reflexivity. }
  rewrite !filter_app.
  rewrite (pulses_of_rslots _ _ _ _ _ _ _ HD HrH), (pulses_of_rslots _ _ _ _ _ _ _ HD HrL).
  rewrite (pulses_of_wslots _ _ _ _ _ HD Hc4), (pulses_of_wslots _ _ _ _ _ HD Hc3).
  rewrite (pulses_of_samples _ _ Hs2), (pulses_of_reset _ _ _ Hr2).
  rewrite (pulses_of_wslots _ _ _ _ _ HD Hc2), (pulses_of_wslots _ _ _ _ _ HD Hc1).
  rewrite (pulses_of_samples _ _ Hs1).
  rewrite <- (app_nil_r (filter is_driveb rst1)), (pulses_of_reset _ _ _ Hr1).
  rewrite HlL, HlH. cbn [slot_bits]. rewrite <- !app_assoc. reflexivity.
Qed.

Lemma reading_on_the_wire_witness :
  exists t w' new rst1 cmd1 rst2 cmd2 slots,
    ds18b20GetTemperture no_sensor 750 boot = Some (t, w') /\
    trace w' = new ++ trace boot /\
    Forall (fun e => event_pin e = pin boot) new /\
    filter is_driveb new = slots ++ cmd2 ++ rst2 ++ cmd1 ++ rst1 /\
    length (filter is_driveb new) = 100%nat /\
    reset_events (pin boot) rst1 /\
    (length cmd1 = 32%nat /\
     slot_bits cmd1 = bits_upto 0xCC 8 ++ bits_upto 0x44 8) /\
    reset_events (pin boot) rst2 /\
    (length cmd2 = 32%nat /\
     slot_bits cmd2 = bits_upto 0xCC 8 ++ bits_upto 0xBE 8) /\
    (length slots = 32%nat /\ slot_bits slots = repeat true 16) /\
    slot_bits (filter is_driveb new)
    = [false] ++ bits_upto 0xCC 8 ++ bits_upto 0x44 8
      ++ [false] ++ bits_upto 0xCC 8 ++ bits_upto 0xBE 8
      ++ repeat true 16.
Proof.
  apply (reading_on_the_wire no_sensor 750 1 boot).
  - exact no_sensor_steady.
  - lia.
  - cbn. lia.
Defined.

Lemma rslots_length env D p h0 lv new :
  rslots env D p h0 lv new -> length new = (3 * length lv)%nat.
Proof.
  intros Hr. induction Hr as [|lv v new t0 t1 t2 Hr IH Hlow Hhigh Hv]; [reflexivity|].
  cbn [length]. rewrite IH, length_app. cbn [length]. lia.
Qed.

(** X7. The temperature [ds18b20GetTemperture] returns is decoded from
    the sixteen samples of its read slots, which are the last sixteen
    samples it takes: the first eight, bit 0 first, are the byte it uses
    as TL and the next eight the byte it uses as TH. *)
Theorem reading_from_samples env fuel D w :
  steady D env -> 750 + D < 2147483648 -> 750 <= Z.of_nat fuel ->
  exists t w' new lvL lvH,
    ds18b20GetTemperture env fuel w = Some (t, w') /\
    trace w' = new ++ trace w /\
    observed (filter is_sampleb (firstn 48 new)) = lvL ++ lvH /\
    length lvL = 8%nat /\ length lvH = 8%nat /\
    t = decode (byte_of_bits lvH) (byte_of_bits lvL).
Proof.
  intros Hs HD Hf.
  destruct (ds18b20GetTemperture_full env fuel D Hs HD Hf w)
    as (t & w' & Hrun & rst1 & chk1 & c1 & c2 & rst2 & chk2 & c3 & c4
        & rL & rH & lvL & lvH & hL & hH & (_ & Ht & _) & _ & _
        & (HrL & HlL & HrH & HlH) & Hdec & _).
  eexists t, w', _, lvL, lvH. split; [exact Hrun|]. split; [exact Ht|].
  split; [|repeat split; assumption].
  pose proof (rslots_length _ _ _ _ _ _ HrL) as LL.
  pose proof (rslots_length _ _ _ _ _ _ HrH) as LH.
  rewrite app_assoc, firstn_app.
  replace (48 - length (rH ++ rL))%nat with 0%nat by (rewrite length_app; lia).
  rewrite firstn_O, app_nil_r, firstn_all2 by (rewrite length_app; lia).
  rewrite filter_app. unfold observed. rewrite map_app, rev_app_distr.
  fold (observed (filter is_sampleb rL)). fold (observed (filter is_sampleb rH)).
  rewrite (proj1 (rslots_observed _ _ _ _ _ _ HrL)), (proj1 (rslots_observed _ _ _ _ _ _ HrH)).
  reflexivity.
Qed.

Lemma reading_from_samples_witness :
  exists t w' new lvL lvH,
    ds18b20GetTemperture no_sensor 750 boot = Some (t, w') /\
    trace w' = new ++ trace boot /\
    observed (filter is_sampleb (firstn 48 new)) = lvL ++ lvH /\
    length lvL = 8%nat /\ length lvH = 8%nat /\
    t = decode (byte_of_bits lvH) (byte_of_bits lvL).
Proof.
  apply (reading_from_samples no_sensor 750 1 boot).
  - exact no_sensor_steady.
  - lia.
  - cbn. lia.
Defined.

Lemma rslots_constant env D p h0 lv new c :
  (forall q t h, line env q t h = c) ->
  rslots env D p h0 lv new -> lv = repeat c (length lv).
Proof.
  intros Hc Hr. induction Hr as [|lv v new t0 t1 t2 Hr IH Hlow Hhigh Hv]; [reflexivity|].
  rewrite length_app, repeat_app, <- IH, Hv, Hc. reflexivity.
Qed.

(** X8. A line that reads the same level [c] at every sample: high when
    no sensor is attached, low when the line is shorted to ground.  For
    every selector, [temperature] returns as for a reading: 31.875 when
    the line is high and 0 when it is low; no failure is reported. *)
Theorem temperature_on_a_dead_line env fuel D c p w :
  steady D env -> 750 + D < 2147483648 -> 750 <= Z.of_nat fuel ->
  (forall q t h, line env q t h = c) ->
  exists t w',
    temperature env fuel p w = Some (t, w') /\
    F.has_value t (if c then 31.875 else 0).
Proof.
  intros Hs HD Hf Hc. unfold temperature, bind, set_pin.
  destruct (ds18b20GetTemperture_full env fuel D Hs HD Hf
              {| pin := select_pin p; reads := reads w; trace := trace w |})
    as (t & w' & Hrun & rst1 & chk1 & c1 & c2 & rst2 & chk2 & c3 & c4
        & rL & rH & lvL & lvH & hL & hH & _ & _ & _
        & (HrL & HlL & HrH & HlH) & Hdec & _).
  exists t, w'. split; [exact Hrun|].
  rewrite (rslots_constant _ _ _ _ _ _ c Hc HrL), HlL in Hdec.
  rewrite (rslots_constant _ _ _ _ _ _ c Hc HrH), HlH in Hdec.
  subst t. destruct c; vm_compute; reflexivity.
Qed.

Lemma temperature_on_a_dead_line_witness :
  exists t w',
    temperature no_sensor 750 3 boot = Some (t, w') /\
    F.has_value t (if true then 31.875 else 0).
Proof.
  apply (temperature_on_a_dead_line no_sensor 750 1 true 3 boot).
  - exact no_sensor_steady.
  - lia.
  - cbn. lia.
  - reflexivity.
Defined.

(** X9. [ds18b20GetTemperture] blocks its caller for at least 4826
    microseconds, whatever the line does, and for at most
    4688 + 2036 D microseconds on a clock that advances by 1 to D
    microseconds at each reading. *)
Theorem reading_blocks_for env fuel D w :
  steady D env -> 750 + D < 2147483648 -> 750 <= Z.of_nat fuel ->
  exists t w',
    ds18b20GetTemperture env fuel w = Some (t, w') /\
    4826 <= now env w' - now env w <= 4688 + 2036 * D.
Proof.
  intros Hs HD Hf.
  destruct (ds18b20GetTemperture_full env fuel D Hs HD Hf w)
    as (t & w' & Hrun & rst1 & chk1 & c1 & c2 & rst2 & chk2 & c3 & c4
        & rL & rH & lvL & lvH & hL & hH & _ & _ & _ & _ & _ & Htime & _).
  exists t, w'. split; [exact Hrun | exact Htime].
Qed.

Lemma reading_blocks_for_witness :
  exists t w',
    ds18b20GetTemperture loopback_env 750 boot = Some (t, w') /\
    4826 <= now loopback_env w' - now loopback_env boot <= 4688 + 2036 * 1.
Proof.
  apply (reading_blocks_for loopback_env 750 1 boot).
  - exact loopback_env_steady.
  - lia.
  - cbn. lia.
Defined.

(** ** The selector table *)

(** The number printed on a pin. *)
Definition pin_number (q : PinName) : Z :=
  match q with
  | P0 => 0 | P1 => 1 | P2 => 2 | P3 => 3 | P4 => 4 | P5 => 5
  | P6 => 6 | P7 => 7 | P8 => 8 | P9 => 9 | P10 => 10 | P11 => 11
  | P12 => 12 | P13 => 13 | P14 => 14 | P15 => 15 | P16 => 16
  end.

Lemma pin_number_select p : 0 <= p <= 16 -> pin_number (select_pin p) = p.
Proof.
  intros H. destruct p as [|p|p]; [reflexivity| |lia].
  do 5 (try (destruct p as [p|p|]; try reflexivity; try lia)).
Qed.

(** X10. The [switch] of [temperature] binds, for a selector from 0 to
    16, the pin of that number: two different selectors in that range
    never share a pin.  Every other selector gives the same run as the
    selector 8. *)
Theorem selectors_are_distinct :
  (forall p q, 0 <= p <= 16 -> 0 <= q <= 16 -> select_pin p = select_pin q -> p = q) /\
  (forall p, 0 <= p <= 16 -> pin_number (select_pin p) = p) /\
  (forall env fuel p w, ~ 0 <= p <= 16 ->
     temperature env fuel p w = temperature env fuel 8 w).
Proof.
  split; [|split].
  - intros p q Hp Hq E.
    rewrite <- (pin_number_select p Hp), <- (pin_number_select q Hq), E. reflexivity.
  - exact pin_number_select.
  - intros env fuel p w Hp. unfold temperature.
    rewrite (select_pin_default p Hp). reflexivity.
Qed.

Lemma selectors_are_distinct_witness :
  (select_pin 3 = select_pin 3 -> 3 = 3) /\
  pin_number (select_pin 16) = 16 /\
  temperature no_sensor 750 (-1) boot = temperature no_sensor 750 8 boot.
Proof.
  destruct selectors_are_distinct as (Hinj & Hnum & Hdef).
  split; [apply Hinj; lia|]. split; [apply Hnum; lia|].
  apply Hdef. lia.
Defined.

(** ** The decoder on the words of the sensor *)

(** The words a DS18B20 puts in its temperature register: twelve bits in
    two's complement, the sign repeated in the five bits above. *)
Definition sensor_words : list Z :=
  map Z.of_nat (seq 0 2048) ++ map (fun n => 63488 + Z.of_nat n) (seq 0 2048).

(** The temperature a word stands for, in sixteenths of a degree. *)
Definition sixteenths (temp : Z) : Z := if temp <? 32768 then temp else temp - 65536.

Lemma sensor_words_spec temp :
  0 <= temp < 2048 \/ 63488 <= temp < 65536 -> In temp sensor_words.
Proof.
  intros H. unfold sensor_words. apply in_app_iff. destruct H as [H|H].
  - left. apply in_map_iff. exists (Z.to_nat temp). split; [lia | apply in_seq; lia].
  - right. apply in_map_iff. exists (Z.to_nat (temp - 63488)).
    split; [lia | apply in_seq; lia].
Qed.

(** X11. Lines 228 to 234 on a word of the sensor: the test of the sign
    pattern holds exactly for the negative words, and the value returned
    is the word, read as a 16-bit two's-complement number, times 0.0625,
    without rounding. *)
Theorem decode_word_on_sensor_words temp :
  0 <= temp < 2048 \/ 63488 <= temp < 65536 ->
  sign_pattern temp = (63488 <=? temp) /\
  F.has_value (decode_word temp) (inject_Z (sixteenths temp) * 0.0625).
Proof.
  intros H.
  assert (Hall : forallb (fun n =>
                   Bool.eqb (sign_pattern n) (63488 <=? n) &&
                   F.has_valueb (decode_word n) (inject_Z (sixteenths n) * 0.0625))
                   sensor_words = true) by (vm_compute; reflexivity).
  rewrite forallb_forall in Hall. specialize (Hall temp (sensor_words_spec temp H)).
  apply andb_true_iff in Hall. destruct Hall as [Hs Hv].
  split; [apply eqb_prop, Hs | apply has_valueb_spec, Hv].
Qed.

Lemma decode_word_on_sensor_words_witness :
  sign_pattern 0xFF9C = (63488 <=? 0xFF9C) /\
  F.has_value (decode_word 0xFF9C) (inject_Z (sixteenths 0xFF9C) * 0.0625).
Proof.
  apply (decode_word_on_sensor_words 0xFF9C). right. lia.
Defined.

(** ** The entry point and the decoded bytes *)

Lemma byte_of_bits_uint8 lv : length lv = 8%nat -> Int.is_uint8 (byte_of_bits lv).
Proof.
  intros H. pose proof (byte_of_bits_bound lv) as B. rewrite H in B. exact B.
Qed.

(** C8. [temperature p] with [p] outside 0..16 binds P8, the default of
    the [switch], and with [p] in 0..16 the pin of that number.  In both
    cases it goes on with the whole reading on the pin it bound and
    returns a temperature: every bus event is on that pin, and the
    events are, from the first to the last, a reset pulse of at least
    750 microseconds, the samples of a presence check, the write slots
    of the bytes CCh and 44h, a second reset pulse, the samples of a
    second presence check, the write slots of CCh and BEh, the eight
    read slots of the byte TL and the eight read slots of the byte TH;
    the temperature is decoded from these two bytes. *)
Theorem temperature_binds_pin env fuel D p w :
  steady D env -> 750 + D < 2147483648 -> 750 <= Z.of_nat fuel ->
  (~ 0 <= p <= 16 -> select_pin p = P8) /\
  (0 <= p <= 16 -> select_pin p = nth (Z.to_nat p) all_pins P8) /\
  exists t w' new rst1 chk1 c1 c2 rst2 chk2 c3 c4 rL rH lvL lvH,
    temperature env fuel p w = Some (t, w') /\
    pin w' = select_pin p /\
    trace w' = new ++ trace w /\ new <> [] /\
    Forall (fun e => event_pin e = select_pin p) new /\
    new = rH ++ rL ++ c4 ++ c3 ++ chk2 ++ rst2 ++ c2 ++ c1 ++ chk1 ++ rst1 /\
    (reset_events (select_pin p) rst1 /\ polled chk1 /\
     wslots D (select_pin p) (bits_upto 0xCC 8) c1 /\
     wslots D (select_pin p) (bits_upto 0x44 8) c2) /\
    (reset_events (select_pin p) rst2 /\ polled chk2 /\
     wslots D (select_pin p) (bits_upto 0xCC 8) c3 /\
     wslots D (select_pin p) (bits_upto 0xBE 8) c4) /\
    (rslots env D (select_pin p)
       ((c4 ++ c3 ++ chk2 ++ rst2 ++ c2 ++ c1 ++ chk1 ++ rst1) ++ trace w) lvL rL /\
     length lvL = 8%nat /\
     rslots env D (select_pin p)
       ((rL ++ c4 ++ c3 ++ chk2 ++ rst2 ++ c2 ++ c1 ++ chk1 ++ rst1) ++ trace w) lvH rH /\
     length lvH = 8%nat) /\
    t = decode (byte_of_bits lvH) (byte_of_bits lvL).
Proof.
  intros Hs HD Hf.
  split; [apply select_pin_default|]. split; [apply select_pin_mapped|].
  unfold temperature, bind, set_pin.
  destruct (ds18b20GetTemperture_full env fuel D Hs HD Hf
              {| pin := select_pin p; reads := reads w; trace := trace w |})
    as (t & w' & Hrun & rst1 & chk1 & c1 & c2 & rst2 & chk2 & c3 & c4
        & rL & rH & lvL & lvH & hL & hH & (Hp & Ht & _ & Hon)
        & Hfirst & Hsecond & (HrL & HlL & HrH & HlH) & Hdec & _ & -> & ->).
  cbn [pin trace] in *.
  exists t, w', (rH ++ rL ++ c4 ++ c3 ++ chk2 ++ rst2 ++ c2 ++ c1 ++ chk1 ++ rst1),
    rst1, chk1, c1, c2, rst2, chk2, c3, c4, rL, rH, lvL, lvH.
  split; [exact Hrun|]. split; [exact Hp|]. split; [exact Ht|].
  split.
  { intros E. repeat (apply app_eq_nil in E; destruct E as [_ E]).
    destruct Hfirst as ((t0 & t1 & -> & _) & _). discriminate E. }
  split; [exact Hon|]. split; [reflexivity|].
  split; [exact Hfirst|]. split; [exact Hsecond|].
  split; [|exact Hdec].
  split; [exact HrL|]. split; [exact HlL|]. split; [exact HrH | exact HlH].
Qed.

Lemma temperature_binds_pin_witness :
  (~ 0 <= 99 <= 16 -> select_pin 99 = P8) /\
  (0 <= 99 <= 16 -> select_pin 99 = nth (Z.to_nat 99) all_pins P8) /\
  exists t w' new rst1 chk1 c1 c2 rst2 chk2 c3 c4 rL rH lvL lvH,
    temperature no_sensor 750 99 boot = Some (t, w') /\
    pin w' = select_pin 99 /\
    trace w' = new ++ trace boot /\ new <> [] /\
    Forall (fun e => event_pin e = select_pin 99) new /\
    new = rH ++ rL ++ c4 ++ c3 ++ chk2 ++ rst2 ++ c2 ++ c1 ++ chk1 ++ rst1 /\
    (reset_events (select_pin 99) rst1 /\ polled chk1 /\
     wslots 1 (select_pin 99) (bits_upto 0xCC 8) c1 /\
     wslots 1 (select_pin 99) (bits_upto 0x44 8) c2) /\
    (reset_events (select_pin 99) rst2 /\ polled chk2 /\
     wslots 1 (select_pin 99) (bits_upto 0xCC 8) c3 /\
     wslots 1 (select_pin 99) (bits_upto 0xBE 8) c4) /\
    (rslots no_sensor 1 (select_pin 99)
       ((c4 ++ c3 ++ chk2 ++ rst2 ++ c2 ++ c1 ++ chk1 ++ rst1) ++ trace boot) lvL rL /\
     length lvL = 8%nat /\
     rslots no_sensor 1 (select_pin 99)
       ((rL ++ c4 ++ c3 ++ chk2 ++ rst2 ++ c2 ++ c1 ++ chk1 ++ rst1) ++ trace boot) lvH rH /\
     length lvH = 8%nat) /\
    t = decode (byte_of_bits lvH) (byte_of_bits lvL).
Proof.
  refine (temperature_binds_pin no_sensor 750 1 99 boot _ _ _).
  - exact no_sensor_steady.
  - lia.
  - cbn. lia.
Defined.

(** C10. For every pair of bytes [TH], [TL]: the variable [temp] that is
    decoded is [TH + TL] (the shift of line 225 is lost), hence at most
    510; the sign test of line 228 fails on it; and the value returned
    is [(TH + TL) * 0.0625], which is between 0 and 31.875.  And
    [ds18b20GetTemperture] decodes the two bytes of its two scratchpad
    reads: its last 48 bus events are the eight read slots of TL
    followed by the eight read slots of TH, each sample being what the
    line gave; TL and TH are the bytes of the levels sampled, bit 0
    first; and the temperature returned is [(TH + TL) * 0.0625], between
    0 and 31.875. *)
Theorem decode_adds_the_bytes :
  (forall TH TL,
     Int.is_uint8 TH -> Int.is_uint8 TL ->
     combine TH TL = TH + TL /\
     combine TH TL <= 510 /\
     sign_pattern (combine TH TL) = false /\
     F.has_value (decode TH TL) (inject_Z (TH + TL) * 0.0625) /\
     (0 <= inject_Z (TH + TL) * 0.0625 <= 31.875)%Q) /\
  (forall env fuel D w,
     steady D env -> 750 + D < 2147483648 -> 750 <= Z.of_nat fuel ->
     exists t w' rest rL rH lvL lvH,
       ds18b20GetTemperture env fuel w = Some (t, w') /\
       trace w' = (rH ++ rL ++ rest) ++ trace w /\
       rslots env D (pin w) (rest ++ trace w) lvL rL /\
       rslots env D (pin w) ((rL ++ rest) ++ trace w) lvH rH /\
       length lvL = 8%nat /\ length lvH = 8%nat /\
       observed (filter is_sampleb rL) = lvL /\
       observed (filter is_sampleb rH) = lvH /\
       Int.is_uint8 (byte_of_bits lvH) /\ Int.is_uint8 (byte_of_bits lvL) /\
       t = decode (byte_of_bits lvH) (byte_of_bits lvL) /\
       F.has_value t (inject_Z (byte_of_bits lvH + byte_of_bits lvL) * 0.0625) /\
       (0 <= inject_Z (byte_of_bits lvH + byte_of_bits lvL) * 0.0625 <= 31.875)%Q).
Proof.
  assert (Hdec : forall TH TL,
             Int.is_uint8 TH -> Int.is_uint8 TL ->
             F.has_value (decode TH TL) (inject_Z (TH + TL) * 0.0625) /\
             (0 <= inject_Z (TH + TL) * 0.0625 <= 31.875)%Q).
  { intros TH TL H L. unfold decode. rewrite (combine_is_sum TH TL H L).
    destruct (decode_word_small (TH + TL) (byte_sums_spec TH TL H L)) as [_ Hv].
    unfold Int.is_uint8 in H, L.
    repeat split; try assumption; unfold Qle; cbn; lia. }
  split.
  - intros TH TL H L. rewrite (combine_is_sum TH TL H L).
    destruct (decode_word_small (TH + TL) (byte_sums_spec TH TL H L)) as [Hs _].
    destruct (Hdec TH TL H L) as [Hv Hb].
    unfold Int.is_uint8 in H, L.
    repeat split; try assumption; try apply Hb; lia.
  - intros env fuel D w Hs HD Hf.
    destruct (ds18b20GetTemperture_full env fuel D Hs HD Hf w)
      as (t & w' & Hrun & rst1 & chk1 & c1 & c2 & rst2 & chk2 & c3 & c4
          & rL & rH & lvL & lvH & hL & hH & (_ & Ht & _)
          & _ & _ & (HrL & HlL & HrH & HlH) & Ht' & _ & -> & ->).
    pose proof (byte_of_bits_uint8 lvH HlH) as H.
    pose proof (byte_of_bits_uint8 lvL HlL) as L.
    destruct (Hdec _ _ H L) as [Hv Hb].
    exists t, w', (c4 ++ c3 ++ chk2 ++ rst2 ++ c2 ++ c1 ++ chk1 ++ rst1), rL, rH, lvL, lvH.
    split; [exact Hrun|]. split; [exact Ht|].
    split; [exact HrL|]. split; [exact HrH|].
    split; [exact HlL|]. split; [exact HlH|].
    split; [exact (proj1 (rslots_observed _ _ _ _ _ _ HrL))|].
    split; [exact (proj1 (rslots_observed _ _ _ _ _ _ HrH))|].
    split; [exact H|]. split; [exact L|]. split; [exact Ht'|].
    split; [rewrite Ht'; exact Hv | exact Hb].
Qed.

Lemma decode_adds_the_bytes_witness :
  (combine 0x07 0xD0 = 0x07 + 0xD0 /\
   combine 0x07 0xD0 <= 510 /\
   sign_pattern (combine 0x07 0xD0) = false /\
   F.has_value (decode 0x07 0xD0) (inject_Z (0x07 + 0xD0) * 0.0625) /\
   (0 <= inject_Z (0x07 + 0xD0) * 0.0625 <= 31.875)%Q) /\
  (exists t w' rest rL rH lvL lvH,
     ds18b20GetTemperture loopback_env 750 boot = Some (t, w') /\
     trace w' = (rH ++ rL ++ rest) ++ trace boot /\
     rslots loopback_env 1 (pin boot) (rest ++ trace boot) lvL rL /\
     rslots loopback_env 1 (pin boot) ((rL ++ rest) ++ trace boot) lvH rH /\
     length lvL = 8%nat /\ length lvH = 8%nat /\
     observed (filter is_sampleb rL) = lvL /\
     observed (filter is_sampleb rH) = lvH /\
     Int.is_uint8 (byte_of_bits lvH) /\ Int.is_uint8 (byte_of_bits lvL) /\
     t = decode (byte_of_bits lvH) (byte_of_bits lvL) /\
     F.has_value t (inject_Z (byte_of_bits lvH + byte_of_bits lvL) * 0.0625) /\
     (0 <= inject_Z (byte_of_bits lvH + byte_of_bits lvL) * 0.0625 <= 31.875)%Q).
Proof.
  split.
  - refine (proj1 decode_adds_the_bytes 0x07 0xD0 _ _); unfold Int.is_uint8; lia.
  - refine (proj2 decode_adds_the_bytes loopback_env 750%nat 1 boot _ _ _).
    + intros k. cbn [clock loopback_env]. lia.
    + lia.
    + cbn. lia.
Defined.
